(** * IAM token exchange client

    A shallow embedding of
    [vendor/github.com/IBM/ibmcloud-volume-interface/provider/iam/token_exchange.go]
    and the properties of its request construction, response
    classification and retry behaviour.

    Go strings are byte sequences and are modelled by [string] (a list of
    8-bit [ascii] characters); Go's [int] is modelled by [Z]; a nilable
    pointer or interface value is an [option]. *)

From Stdlib Require Import ZArith NArith Ascii Lia.
From stdpp Require Import base option list strings gmap fin_maps.

Local Open Scope Z_scope.

(** ** Go standard library: strings, fmt, encoding/base64 *)

Module strings.

(** [strings.HasPrefix(s, prefix)]. *)
Fixpoint HasPrefix (s prefix : string) {struct prefix} : bool :=
  match prefix, s with
  | EmptyString, _ => true
  | String _ _, EmptyString => false
  | String p prefix', String c s' =>
      if decide (p = c) then HasPrefix s' prefix' else false
  end.

(** [strings.Contains(s, substr)]: [substr] occurs somewhere within [s]. *)
Fixpoint Contains (s substr : string) : bool :=
  HasPrefix s substr ||
  match s with
  | EmptyString => false
  | String _ s' => Contains s' substr
  end.

(** The declarative reading of containment. *)
Definition Substring (substr s : string) : Prop :=
  exists pre suf : string, s = pre +:+ substr +:+ suf.

End strings.

Module base64.

(** The alphabet of [base64.StdEncoding] (RFC 4648, section 4). *)
Definition encodeStd : string :=
  "ABCDEFGHIJKLMNOPQRSTUVWXYZabcdefghijklmnopqrstuvwxyz0123456789+/".

Definition StdPadding : ascii := "="%char.

(** [enc.encode[i & 0x3F]] *)
Definition digit (i : N) : ascii :=
  match String.get (N.to_nat (N.land i 63)) encodeStd with
  | Some c => c
  | None => StdPadding
  end.

Definition byte (c : ascii) : N := N_of_ascii c.

(** [StdEncoding.EncodeToString]: every three source bytes become four
    digits; a final group of one or two bytes is padded with [=]. *)
Fixpoint EncodeToString (src : string) : string :=
  match src with
  | EmptyString => EmptyString
  | String a EmptyString =>
      let val := N.shiftl (byte a) 16 in
      String (digit (N.shiftr val 18))
        (String (digit (N.shiftr val 12))
           (String StdPadding (String StdPadding EmptyString)))
  | String a (String b EmptyString) =>
      let val := N.lor (N.shiftl (byte a) 16) (N.shiftl (byte b) 8) in
      String (digit (N.shiftr val 18))
        (String (digit (N.shiftr val 12))
           (String (digit (N.shiftr val 6))
              (String StdPadding EmptyString)))
  | String a (String b (String c rest)) =>
      let val :=
        N.lor (N.lor (N.shiftl (byte a) 16) (N.shiftl (byte b) 8)) (byte c) in
      String (digit (N.shiftr val 18))
        (String (digit (N.shiftr val 12))
           (String (digit (N.shiftr val 6))
              (String (digit val) (EncodeToString rest))))
  end.

End base64.

(** [fmt.Sprintf("%s:%s", a, b)], [fmt.Sprintf("Basic %s", a)] and
    [fmt.Sprintf("%s/oidc/token", a)], written out. *)
Module fmt.
Definition Sprintf_s_colon_s (a b : string) : string := a +:+ ":" +:+ b.
Definition Sprintf_Basic_s (a : string) : string := "Basic " +:+ a.
Definition Sprintf_s_oidc_token (a : string) : string := a +:+ "/oidc/token".
End fmt.

(** ** Go errors

    A value of interface type [error] is [nil] or carries an error object.
    Two kinds of objects occur here: the provider errors built by
    [util.NewError], and every other error (from [errors.New], from the
    HTTP transport), which only ever takes part through its text. *)

Definition ReasonCode := string.

Record Fault := {
  Fault_ReasonCode : ReasonCode;
  Fault_Message : string;
  Fault_Wrapped : list string
}.

Inductive errorValue :=
| errorString (text : string)
| providerError (fault : Fault).

Definition error : Type := option errorValue.

(** [err.Error()] *)
Definition Error_text (e : errorValue) : string :=
  match e with
  | errorString text => text
  | providerError fault => Fault_Message fault
  end.

Module errors.
(** [errors.New(text)] *)
Definition New (text : string) : error := Some (errorString text).
End errors.

Module time.
(** [time.Duration] counts nanoseconds. *)
Definition Duration := Z.
Definition Second : Duration := 1000000000.
(** The value of [time.ParseDuration("3s")]. *)
Definition ParseDuration_3s : Duration := 3 * Second.
End time.

(** ** The REST request builder and client (package [rest]) *)

Module rest.

(** Modelled from the spec: package
    [github.com/IBM-Cloud/ibm-cloud-cli-sdk/common/rest] is missing from
    the sources.  An exchange request is a target URL, form fields and
    headers.  Headers and form fields are Go maps from a name to the
    list of its values ([http.Header], [url.Values]). *)
Record Request := {
  method : string;
  rawUrl : string;
  header : gmap string (list string);
  formParams : gmap string (list string)
}.

(** Modelled from the spec: [rest.PostRequest(rawUrl)], a POST request
    to the URL with no header and no form field yet. *)
Definition PostRequest (url : string) : Request :=
  {| method := "POST"; rawUrl := url; header := ∅; formParams := ∅ |}.

(** Modelled from the spec: [r.Field(key, value)] attaches a form field
    (as [url.Values.Add] does, after the values the key already has). *)
Definition Field (key value : string) (r : Request) : Request :=
  {| method := method r; rawUrl := rawUrl r; header := header r;
     formParams :=
       <[key := default [] (formParams r !! key) ++ [value]]> (formParams r) |}.

(** Modelled from the spec: [r.Set(key, value)] sets a header (as
    [http.Header.Set] does, replacing the values the key already has;
    the two names used by this file are in canonical MIME form). *)
Definition Set_ (key value : string) (r : Request) : Request :=
  {| method := method r; rawUrl := rawUrl r;
     header := <[key := [value]]> (header r);
     formParams := formParams r |}.

(** Modelled from the spec: what [client.Do] does to the request object
    it is handed before it sends it.  A request with form fields gets a
    form-encoded body, and its [Content-Type] header is set on the
    request object itself, where it stays. *)
Definition Build (r : Request) : Request :=
  if decide (formParams r = ∅) then r
  else Set_ "Content-Type" "application/x-www-form-urlencoded" r.

(** [*http.Response], of which the code reads [StatusCode] only. *)
Record Response := { StatusCode : Z }.

(** Modelled from the spec: what one call
    [client.Do(request, &successV, &errorV)] hands back, namely the two
    results [(resp, err)] and the contents of the two structs the client
    decodes the success body and the error body into. *)
Record DoResult (S E : Type) := {
  Do_resp : option Response;
  Do_err : error;
  Do_successV : S;
  Do_errorV : E
}.
Arguments Do_resp {S E} _.
Arguments Do_err {S E} _.
Arguments Do_successV {S E} _.
Arguments Do_errorV {S E} _.

End rest.

(** ** Data model of package [iam] *)

(** [AuthConfiguration] *)
Record AuthConfiguration := {
  IamURL : string;
  IamClientID : string;
  IamClientSecret : string
}.

(** [AccessToken] and [IMSToken] *)
Record AccessToken := { AccessToken_Token : string }.
Record IMSToken := { IMSToken_UserID : Z; IMSToken_Token : string }.

(** [tokenExchangeResponse], the success body. *)
Record tokenExchangeResponse := {
  resp_AccessToken : string;
  resp_ImsToken : string;
  resp_ImsUserID : Z
}.

(** The anonymous struct [errorV] of [sendTokenExchangeRequest], the
    error body. *)
Record requirements := {
  Requirements_Error : string;
  Requirements_Code : string
}.

Record errorBody := {
  ErrorMessage : string;
  ErrorType : string;
  ErrorDetails : string;
  Requirements : requirements
}.

(** The zero values the client starts from when it decodes a body. *)
Definition zero_tokenExchangeResponse : tokenExchangeResponse :=
  {| resp_AccessToken := ""; resp_ImsToken := ""; resp_ImsUserID := 0 |}.

Definition zero_errorBody : errorBody :=
  {| ErrorMessage := ""; ErrorType := ""; ErrorDetails := "";
     Requirements := {| Requirements_Error := ""; Requirements_Code := "" |} |}.

(** The HTTP client as the code sees it: the outcome of the [n]-th call
    (counted from 0 within one exchange) for the request handed over. *)
Definition httpClient_t : Type :=
  nat -> rest.Request -> rest.DoResult tokenExchangeResponse errorBody.

(** [tokenExchangeService] *)
Record tokenExchangeService := {
  authConfig : AuthConfiguration;
  httpClient : httpClient_t
}.

(** ** State of one exchange call

    [r.request] points to a request object that [Field] and [Set] update
    in place, and on which the client's [Do] leaves the header of the
    body it builds; [iamResp] and [err] are the variables the retried closure
    captures and assigns; [sent] logs the requests handed to the HTTP
    client, oldest first; [slept] sums the arguments of [time.Sleep]. *)
Record State := {
  request : rest.Request;
  iamResp : option tokenExchangeResponse;
  err : error;
  sent : list rest.Request;
  slept : time.Duration
}.

(** A call returns a value or panics (a nil pointer dereference). *)
Inductive Result (A : Type) :=
| Done (a : A) (s : State)
| Panic (s : State).
Arguments Done {A} a s.
Arguments Panic {A} s.

Definition M (A : Type) : Type := State -> Result A.

#[global] Instance M_ret : MRet M := fun A a s => Done a s.

#[global] Instance M_bind : MBind M := fun A B f m s =>
  match m s with
  | Done a s' => f a s'
  | Panic s' => Panic s'
  end.

Definition panic {A : Type} : M A := fun s => Panic s.

Definition modify (f : State -> State) : M unit := fun s => Done tt (f s).

Definition gets {A : Type} (f : State -> A) : M A := fun s => Done (f s) s.

Definition set_request (q : rest.Request) (s : State) : State :=
  {| request := q; iamResp := iamResp s; err := err s;
     sent := sent s; slept := slept s |}.

Definition set_iamResp (v : option tokenExchangeResponse) (s : State) : State :=
  {| request := request s; iamResp := v; err := err s;
     sent := sent s; slept := slept s |}.

Definition set_err (e : error) (s : State) : State :=
  {| request := request s; iamResp := iamResp s; err := e;
     sent := sent s; slept := slept s |}.

Definition log_sent (q : rest.Request) (s : State) : State :=
  {| request := request s; iamResp := iamResp s; err := err s;
     sent := sent s ++ [q]; slept := slept s |}.

Definition add_slept (d : time.Duration) (s : State) : State :=
  {| request := request s; iamResp := iamResp s; err := err s;
     sent := sent s; slept := slept s + d |}.

(** [time.Sleep(d)] *)
Definition Sleep (d : time.Duration) : M unit := modify (add_slept d).

(** The state a call starts in: nothing sent, nothing slept, the request
    object not yet built. *)
Definition freshState : State :=
  {| request := rest.PostRequest ""; iamResp := None; err := None;
     sent := []; slept := 0 |}.

Definition run {A : Type} (m : M A) : Result A := m freshState.

(** ** Package [util]: provider errors and the retrier *)

Module util.

(** Modelled from the spec: [util.NewError] of package
    [github.com/IBM/ibmcloud-volume-interface/lib/utils] is missing from
    the sources.  It builds an error of the given kind (reason code) and
    message that wraps the given causes; the chain of underlying causes
    holds, cause by cause, the text of the cause followed by the chain
    the cause itself carries.  A nil cause contributes nothing. *)
Definition NewError (code : ReasonCode) (msg : string) (wrapped : list error)
  : error :=
  Some (providerError
    {| Fault_ReasonCode := code;
       Fault_Message := msg;
       Fault_Wrapped :=
         flat_map (fun w : error =>
           match w with
           | None => []
           | Some (errorString text) => [text]
           | Some (providerError fault) =>
               Fault_Message fault :: Fault_Wrapped fault
           end) wrapped |}).

(** Modelled from the spec: [util.ErrorDeepUnwrapString] is missing from
    the sources.  It unwraps an error into its chain of underlying
    causes, each rendered as text; an error that is not a provider error
    has no such chain. *)
Definition ErrorDeepUnwrapString (e : error) : list string :=
  match e with
  | Some (providerError fault) => Fault_Wrapped fault
  | Some (errorString _) => []
  | None => []
  end.

(** Modelled from the spec: [util.ErrorRetrier] as built by
    [util.NewErrorRetrier], an attempts count and a fixed interval. *)
Record ErrorRetrier := {
  MaxAttempts : Z;
  RetryInterval : time.Duration
}.

Definition NewErrorRetrier (maxAttempt : Z) (retryInterval : time.Duration)
  : ErrorRetrier :=
  {| MaxAttempts := maxAttempt; RetryInterval := retryInterval |}.

(** Modelled from the spec: the loop of [ErrorRetry], missing from the
    sources, with [retries] further attempts allowed after the next one.
    An attempt that asks to stop, or that succeeds, ends the loop; so
    does a failure once no attempt is left; any other failure is
    followed by a sleep of the fixed interval and the next attempt. *)
Fixpoint retryLoop (retries : nat) (interval : time.Duration)
    (funcToRetry : M (error * bool)) : M error :=
  '(e, shouldStop) ← funcToRetry;
  if (shouldStop : bool) then mret e
  else
    match e with
    | None => mret e
    | Some _ =>
        match retries with
        | O => mret e
        | S retries' =>
            Sleep interval;; retryLoop retries' interval funcToRetry
        end
    end.

(** Modelled from the spec: the method [ErrorRetry] of
    [util.ErrorRetrier] is missing from the sources.  A bounded retry
    executor: it runs the function up to [MaxAttempts] times, stops at
    once when the function asks to stop or succeeds, sleeps the fixed
    [RetryInterval] between two attempts, and returns the error of the
    last attempt it made. *)
Definition ErrorRetry (er : ErrorRetrier) (funcToRetry : M (error * bool))
  : M error :=
  retryLoop (Z.to_nat (MaxAttempts er - 1)) (RetryInterval er) funcToRetry.

End util.

(** ** Package [iam]: the token exchange *)

(** The reason codes used by this file. *)
Definition ErrorUnclassified : ReasonCode := "ErrorUnclassified".
Definition ErrorFailedTokenExchange : ReasonCode := "ErrorFailedTokenExchange".
Definition ErrorProviderAccountTemporarilyLocked : ReasonCode :=
  "ErrorProviderAccountTemporarilyLocked".

(** The kind of an error is the reason code it was built with. *)
Definition Code (e : errorValue) : option ReasonCode :=
  match e with
  | providerError fault => Some (Fault_ReasonCode fault)
  | errorString _ => None
  end.

(** [tokenExchangeRequest]; its [request] field points into the state. *)
Record tokenExchangeRequest := {
  tes : tokenExchangeService;
  client : httpClient_t;
  errorRetrier : util.ErrorRetrier
}.

(** The body of the [for ... range wrappedErrors] loop of
    [IsConnectionError]. *)
Fixpoint rangeWrappedErrors (wrappedErrors : list string) : bool :=
  match wrappedErrors with
  | [] => false
  | werr :: more =>
      if strings.Contains werr "tcp" then true else rangeWrappedErrors more
  end.

(** [IsConnectionError] *)
Definition IsConnectionError (e : error) : bool :=
  match e with
  | Some _ =>
      let wrappedErrors := util.ErrorDeepUnwrapString e in
      rangeWrappedErrors wrappedErrors
  | None => false
  end.

(** [newTokenExchangeRequest] *)
Definition newTokenExchangeRequest (tes0 : tokenExchangeService)
  : M tokenExchangeRequest :=
  let retyrInterval := time.ParseDuration_3s in
  modify (set_request
    (rest.PostRequest (fmt.Sprintf_s_oidc_token (IamURL (authConfig tes0)))));;
  mret {| tes := tes0;
          client := httpClient tes0;
          errorRetrier := util.NewErrorRetrier 40 retyrInterval |}.

(** [r.request.Field(key, value)] *)
Definition request_Field (key value : string) : M unit :=
  modify (fun s => set_request (rest.Field key value (request s)) s).

(** [r.request.Set(key, value)] *)
Definition request_Set (key value : string) : M unit :=
  modify (fun s => set_request (rest.Set_ key value (request s)) s).

(** [r.client.Do(r.request, &successV, &errorV)]: the client is handed
    the shared request object as it is, builds it, which leaves the
    [Content-Type] header on the object, and answers. *)
Definition client_Do (r : tokenExchangeRequest)
  : M (rest.DoResult tokenExchangeResponse errorBody) :=
  fun s => Done (client r (length (sent s)) (request s))
                (set_request (rest.Build (request s))
                   (log_sent (request s) s)).

(** [UpdateAPIKey] *)
Definition UpdateAPIKey (tes0 : tokenExchangeService) (apiKey : string)
  : M error :=
  mret None.

(** [sendTokenExchangeRequest] *)
Definition sendTokenExchangeRequest (r : tokenExchangeRequest)
  : M (option tokenExchangeResponse * error) :=
  let basicAuth :=
    fmt.Sprintf_s_colon_s (IamClientID (authConfig (tes r)))
                          (IamClientSecret (authConfig (tes r))) in
  request_Set "Authorization"
    (fmt.Sprintf_Basic_s (base64.EncodeToString basicAuth));;
  request_Set "Accept" "application/json";;
  d ← client_Do r;
  let resp := rest.Do_resp d in
  let successV := rest.Do_successV d in
  let errorV := rest.Do_errorV d in
  match rest.Do_err d with
  | Some _ =>
      mret (None,
            util.NewError ErrorUnclassified
              "IAM token exchange request failed" [rest.Do_err d])
  | None =>
      match resp with
      | Some resp' =>
          if decide (rest.StatusCode resp' = 200) then
            mret (Some successV, None)
          else if decide (ErrorMessage errorV ≠ "") then
            let err0 :=
              util.NewError ErrorFailedTokenExchange
                ("IAM token exchange request failed: " +:+ ErrorMessage errorV)
                [errors.New (ErrorDetails errorV +:+ " " +:+
                             Requirements_Code (Requirements errorV) +:+ ": " +:+
                             Requirements_Error (Requirements errorV))] in
            let err1 :=
              if decide (Requirements_Code (Requirements errorV) =
                         "SoftLayer_Exception_User_Customer_AccountLocked")
              then util.NewError ErrorProviderAccountTemporarilyLocked
                     "Infrastructure account is temporarily locked" [err0]
              else err0 in
            mret (None, err1)
          else
            mret (None,
                  util.NewError ErrorUnclassified
                    "Unexpected IAM token exchange response" [])
      | None => panic
      end
  end.

(** The function literal handed to [ErrorRetry] by both
    [exchangeForAccessToken] and [exchangeForIMSToken]. *)
Definition retried (r : tokenExchangeRequest) : M (error * bool) :=
  '(resp, e) ← sendTokenExchangeRequest r;
  modify (set_iamResp resp);;
  modify (set_err e);;
  mret (e, negb (IsConnectionError e)).

(** [exchangeForAccessToken] *)
Definition exchangeForAccessToken (r : tokenExchangeRequest)
  : M (option AccessToken * error) :=
  modify (set_iamResp None);;
  modify (set_err None);;
  e ← util.ErrorRetry (errorRetrier r) (retried r);
  modify (set_err e);;
  match e with
  | Some _ => mret (None, e)
  | None =>
      v ← gets iamResp;
      match v with
      | Some resp => mret (Some {| AccessToken_Token := resp_AccessToken resp |}, None)
      | None => panic
      end
  end.

(** [exchangeForIMSToken] *)
Definition exchangeForIMSToken (r : tokenExchangeRequest)
  : M (option IMSToken * error) :=
  modify (set_iamResp None);;
  modify (set_err None);;
  e ← util.ErrorRetry (errorRetrier r) (retried r);
  modify (set_err e);;
  match e with
  | Some _ => mret (None, e)
  | None =>
      v ← gets iamResp;
      match v with
      | Some resp =>
          mret (Some {| IMSToken_UserID := resp_ImsUserID resp;
                        IMSToken_Token := resp_ImsToken resp |}, None)
      | None => panic
      end
  end.

(** [ExchangeRefreshTokenForAccessToken] *)
Definition ExchangeRefreshTokenForAccessToken (tes0 : tokenExchangeService)
    (refreshToken : string) : M (option AccessToken * error) :=
  r ← newTokenExchangeRequest tes0;
  request_Field "grant_type" "refresh_token";;
  request_Field "refresh_token" refreshToken;;
  exchangeForAccessToken r.

(** [ExchangeAccessTokenForIMSToken] *)
Definition ExchangeAccessTokenForIMSToken (tes0 : tokenExchangeService)
    (accessToken : AccessToken) : M (option IMSToken * error) :=
  r ← newTokenExchangeRequest tes0;
  request_Field "grant_type" "urn:ibm:params:oauth:grant-type:derive";;
  request_Field "response_type" "ims_portal";;
  request_Field "access_token" (AccessToken_Token accessToken);;
  exchangeForIMSToken r.

(** [ExchangeIAMAPIKeyForIMSToken] *)
Definition ExchangeIAMAPIKeyForIMSToken (tes0 : tokenExchangeService)
    (iamAPIKey : string) : M (option IMSToken * error) :=
  r ← newTokenExchangeRequest tes0;
  request_Field "grant_type" "urn:ibm:params:oauth:grant-type:apikey";;
  request_Field "response_type" "ims_portal";;
  request_Field "apikey" iamAPIKey;;
  exchangeForIMSToken r.

(** [ExchangeIAMAPIKeyForAccessToken] *)
Definition ExchangeIAMAPIKeyForAccessToken (tes0 : tokenExchangeService)
    (iamAPIKey : string) : M (option AccessToken * error) :=
  r ← newTokenExchangeRequest tes0;
  request_Field "grant_type" "urn:ibm:params:oauth:grant-type:apikey";;
  request_Field "apikey" iamAPIKey;;
  exchangeForAccessToken r.

(** ** Vocabulary of the statements *)

(** The four public exchange operations, each with its credential. *)
Inductive operation :=
| RefreshTokenForAccessToken (refreshToken : string)
| AccessTokenForIMSToken (accessToken : AccessToken)
| IAMAPIKeyForIMSToken (iamAPIKey : string)
| IAMAPIKeyForAccessToken (iamAPIKey : string).

(** A token of either type. *)
Inductive token :=
| anAccessToken (t : AccessToken)
| anIMSToken (t : IMSToken).

Definition liftResult {A B : Type} (f : A -> B)
    (res : Result (option A * error)) : Result (option B * error) :=
  match res with
  | Done (v, e) s => Done (f <$> v, e) s
  | Panic s => Panic s
  end.

(** One call of a public operation, started in [freshState]. *)
Definition invoke (tes0 : tokenExchangeService) (op : operation)
  : Result (option token * error) :=
  match op with
  | RefreshTokenForAccessToken refreshToken =>
      liftResult anAccessToken
        (run (ExchangeRefreshTokenForAccessToken tes0 refreshToken))
  | AccessTokenForIMSToken accessToken =>
      liftResult anIMSToken
        (run (ExchangeAccessTokenForIMSToken tes0 accessToken))
  | IAMAPIKeyForIMSToken iamAPIKey =>
      liftResult anIMSToken
        (run (ExchangeIAMAPIKeyForIMSToken tes0 iamAPIKey))
  | IAMAPIKeyForAccessToken iamAPIKey =>
      liftResult anAccessToken
        (run (ExchangeIAMAPIKeyForAccessToken tes0 iamAPIKey))
  end.

(** The state a call ends in, returned or panicked. *)
Definition finalState {A : Type} (res : Result A) : State :=
  match res with
  | Done _ s => s
  | Panic s => s
  end.

(** The token the specification expects of an operation for a success
    body: [AccessToken{Token: access_token}] from the access-token
    operations, [IMSToken{UserID: ims_user_id, Token: ims_token}] from the
    IMS-token operations. *)
Definition tokenOf (op : operation) (body : tokenExchangeResponse) : token :=
  match op with
  | RefreshTokenForAccessToken _ | IAMAPIKeyForAccessToken _ =>
      anAccessToken {| AccessToken_Token := resp_AccessToken body |}
  | AccessTokenForIMSToken _ | IAMAPIKeyForIMSToken _ =>
      anIMSToken {| IMSToken_UserID := resp_ImsUserID body;
                    IMSToken_Token := resp_ImsToken body |}
  end.

(** The form fields the specification lists for each operation. *)
Definition formFieldsOf (op : operation) : gmap string (list string) :=
  match op with
  | RefreshTokenForAccessToken refreshToken =>
      {[ "grant_type" := ["refresh_token"];
         "refresh_token" := [refreshToken] ]}
  | AccessTokenForIMSToken accessToken =>
      {[ "grant_type" := ["urn:ibm:params:oauth:grant-type:derive"];
         "response_type" := ["ims_portal"];
         "access_token" := [AccessToken_Token accessToken] ]}
  | IAMAPIKeyForIMSToken iamAPIKey =>
      {[ "grant_type" := ["urn:ibm:params:oauth:grant-type:apikey"];
         "response_type" := ["ims_portal"];
         "apikey" := [iamAPIKey] ]}
  | IAMAPIKeyForAccessToken iamAPIKey =>
      {[ "grant_type" := ["urn:ibm:params:oauth:grant-type:apikey"];
         "apikey" := [iamAPIKey] ]}
  end.

(** The request the specification describes: a POST to
    [{IamURL}/oidc/token] with the Basic-Auth and Accept headers and the
    form fields of the operation. *)
Definition requestOf (a : AuthConfiguration) (op : operation) : rest.Request :=
  {| rest.method := "POST";
     rest.rawUrl := IamURL a +:+ "/oidc/token";
     rest.header :=
       {[ "Authorization" :=
            ["Basic " +:+
             base64.EncodeToString (IamClientID a +:+ ":" +:+ IamClientSecret a)];
          "Accept" := ["application/json"] ]};
     rest.formParams := formFieldsOf op |}.

(** The request object once [sendTokenExchangeRequest] has set its two
    headers. *)
Definition withHeaders (a : AuthConfiguration) (q : rest.Request)
  : rest.Request :=
  rest.Set_ "Accept" "application/json"
    (rest.Set_ "Authorization"
       (fmt.Sprintf_Basic_s
          (base64.EncodeToString
             (fmt.Sprintf_s_colon_s (IamClientID a) (IamClientSecret a)))) q).

(** The [tokenExchangeRequest] that [newTokenExchangeRequest] returns. *)
Definition requestFor (tes0 : tokenExchangeService) : tokenExchangeRequest :=
  {| tes := tes0;
     client := httpClient tes0;
     errorRetrier := util.NewErrorRetrier 40 time.ParseDuration_3s |}.

(** The request handed to the HTTP client on the call number [n] of an
    exchange whose first call hands over [q]: [q] itself, then [q] as
    the client has built it. *)
Definition handedOver (q : rest.Request) (n : nat) : rest.Request :=
  match n with
  | O => q
  | S _ => rest.Build q
  end.

(** What [sendTokenExchangeRequest] returns on the call number [n] to the
    HTTP client of an exchange whose first call hands over [q]; [None]
    when it panics.  The send starts in the state the calls before it
    have left: the request object as the client built it, and [n]
    requests handed over. *)
Definition attempt (r : tokenExchangeRequest) (q : rest.Request) (n : nat)
  : option (option tokenExchangeResponse * error) :=
  match sendTokenExchangeRequest r
          {| request := handedOver q n; iamResp := None; err := None;
             sent := handedOver q <$> seq 0 n; slept := 0 |} with
  | Done v _ => Some v
  | Panic _ => None
  end.

(** The attempt number [n] fails with an error classified as a connection
    error. *)
Definition retryable (r : tokenExchangeRequest) (q : rest.Request) (n : nat)
  : bool :=
  match attempt r q n with
  | Some (_, e) => IsConnectionError e
  | None => false
  end.

(** An error value mentions a text when the text occurs in its message or
    in a layer of its chain of causes. *)
Definition mentions (e : error) (text : string) : bool :=
  match e with
  | Some v =>
      strings.Contains (Error_text v) text ||
      existsb (fun layer => strings.Contains layer text)
              (util.ErrorDeepUnwrapString e)
  | None => false
  end.

(** The contract of [net/http] that the REST client passes on: a call
    that reports no error hands back a response. *)
Definition respondsOrFails (c : httpClient_t) : Prop :=
  forall (n : nat) (q : rest.Request),
    rest.Do_err (c n q) = None -> rest.Do_resp (c n q) <> None.

(** A run of the retry loop that makes [n] attempts out of [allowed],
    the first of them being call number [first] to the HTTP client: every
    attempt but the last is retryable, and when attempts are left over the
    last one is not. *)
Definition RetryRun (r : tokenExchangeRequest) (q : rest.Request)
    (first allowed n : nat) : Prop :=
  (1 <= n <= allowed)%nat /\
  (forall j : nat, (j + 1 < n)%nat -> retryable r q (first + j) = true) /\
  ((n < allowed)%nat -> retryable r q (first + n - 1) = false).

(** What an exchange returns for the outcome of its last attempt: the
    projected token for a success body, the error for a failure, a
    panic when the attempt panicked. *)
Definition outcomeOf {T : Type} (proj : tokenExchangeResponse -> T)
    (last : option (option tokenExchangeResponse * error)) (s' : State)
  : Result (option T * error) :=
  match last with
  | Some (Some body, None) => Done (Some (proj body), None) s'
  | Some (_, Some e) => Done (None, Some e) s'
  | Some (None, None) => Panic s'
  | None => Panic s'
  end.

(** The request object as a public operation leaves it for
    [exchangeForAccessToken] or [exchangeForIMSToken]: the POST request
    with the form fields attached, the headers not yet set. *)
Definition fieldsOnly (a : AuthConfiguration) (op : operation) : rest.Request :=
  {| rest.method := "POST";
     rest.rawUrl := IamURL a +:+ "/oidc/token";
     rest.header := ∅;
     rest.formParams := formFieldsOf op |}.

(** The shape [exchangeForAccessToken] and [exchangeForIMSToken] share;
    they differ in the projection [proj] of the success body only. *)
Definition exchangeWith {T : Type} (proj : tokenExchangeResponse -> T)
    (r : tokenExchangeRequest) : M (option T * error) :=
  modify (set_iamResp None);;
  modify (set_err None);;
  e ← util.ErrorRetry (errorRetrier r) (retried r);
  modify (set_err e);;
  match e with
  | Some _ => mret (None, e)
  | None =>
      v ← gets iamResp;
      match v with
      | Some resp => mret (Some (proj resp), None)
      | None => panic
      end
  end.

(** A Go result pair [(token, err)] holds exactly one of the two. *)
Definition exactlyOne {T : Type} (res : Result (option T * error)) : Prop :=
  (exists (t : T) (s : State), res = Done (Some t, None) s) \/
  (exists (e : errorValue) (s : State), res = Done (None, Some e) s).

(** The account-lock sentinel of the nested requirements code. *)
Definition AccountLocked : string :=
  "SoftLayer_Exception_User_Customer_AccountLocked".

(** The error [sendTokenExchangeRequest] builds for a non-200 response
    with an error message, before the account-lock check: the message
    carries [errorMessage], the single cause is the text made of
    [errorDetails] and the nested requirements code and error. *)
Definition failedTokenExchange (body : errorBody) : errorValue :=
  providerError
    {| Fault_ReasonCode := ErrorFailedTokenExchange;
       Fault_Message :=
         "IAM token exchange request failed: " +:+ ErrorMessage body;
       Fault_Wrapped :=
         [ErrorDetails body +:+ " " +:+
          Requirements_Code (Requirements body) +:+ ": " +:+
          Requirements_Error (Requirements body)] |}.



(** ** Sample clients *)

Definition sampleAuth : AuthConfiguration :=
  {| IamURL := "https://iam.cloud.ibm.com";
     IamClientID := "bx";
     IamClientSecret := "bx" |}.

(** A response with the given status and decoded bodies, and no error. *)
Definition responded (status : Z) (successV : tokenExchangeResponse)
    (errorV : errorBody) : rest.DoResult tokenExchangeResponse errorBody :=
  {| rest.Do_resp := Some {| rest.StatusCode := status |};
     rest.Do_err := None;
     rest.Do_successV := successV;
     rest.Do_errorV := errorV |}.

(** No response, and an error with the given text. *)
Definition failed (text : string)
  : rest.DoResult tokenExchangeResponse errorBody :=
  {| rest.Do_resp := None;
     rest.Do_err := errors.New text;
     rest.Do_successV := zero_tokenExchangeResponse;
     rest.Do_errorV := zero_errorBody |}.

Definition serviceWith (c : httpClient_t) : tokenExchangeService :=
  {| authConfig := sampleAuth; httpClient := c |}.

(** 200 with the body [{"access_token":"abc"}]. *)
Definition clientAccess : httpClient_t := fun _ _ =>
  responded 200
    {| resp_AccessToken := "abc"; resp_ImsToken := ""; resp_ImsUserID := 0 |}
    zero_errorBody.

(** Two refused connections, then 200 with the body
    [{"ims_token":"t","ims_user_id":7}]. *)
Definition clientIMSAfterTwoRefusals : httpClient_t := fun n _ =>
  if (n <? 2)%nat
  then failed "dial tcp 10.0.0.1:443: connect: connection refused"
  else responded 200
         {| resp_AccessToken := ""; resp_ImsToken := "t"; resp_ImsUserID := 7 |}
         zero_errorBody.

(** The given status with the body [{}]. *)
Definition clientEmptyBody (status : Z) : httpClient_t := fun _ _ =>
  responded status zero_tokenExchangeResponse zero_errorBody.

(** Every connection refused. *)
Definition clientRefused : httpClient_t := fun _ _ =>
  failed "dial tcp 10.0.0.1:443: connect: connection refused".

(** 400 with the error body
    [{"errorMessage":"bad","errorCode":errorType,"errorDetails":"no such key","requirements":{"code":code,"error":"locked"}}]. *)
Definition clientRejected (code errorType : string) : httpClient_t := fun _ _ =>
  responded 400 zero_tokenExchangeResponse
    {| ErrorMessage := "bad";
       ErrorType := errorType;
       ErrorDetails := "no such key";
       Requirements :=
         {| Requirements_Error := "locked"; Requirements_Code := code |} |}.

(** 200 whose body does not decode: the client hands back the response
    together with the decoding error. *)
Definition clientGarbled200 : httpClient_t := fun _ _ =>
  {| rest.Do_resp := Some {| rest.StatusCode := 200 |};
     rest.Do_err := errors.New "invalid character '<' looking for beginning of value";
     rest.Do_successV := zero_tokenExchangeResponse;
     rest.Do_errorV := zero_errorBody |}.


(** ** Vocabulary of the further statements *)

(** What the HTTP client hands back to the send started in state [s]. *)
Definition clientResult (r : tokenExchangeRequest) (s : State)
  : rest.DoResult tokenExchangeResponse errorBody :=
  client r (length (sent s)) (withHeaders (authConfig (tes r)) (request s)).

(** The text [sendTokenExchangeRequest] gives the cause of a
    [FailedTokenExchange] error. *)
Definition causeText (body : errorBody) : string :=
  ErrorDetails body +:+ " " +:+
  Requirements_Code (Requirements body) +:+ ": " +:+
  Requirements_Error (Requirements body).

(** The characters of a string. *)
Fixpoint chars (s : string) : list ascii :=
  match s with
  | EmptyString => []
  | String c s' => c :: chars s'
  end.

(** A character of the standard base64 alphabet, or the padding. *)
Definition isBase64Char (c : ascii) : Prop :=
  c ∈ chars base64.encodeStd \/ c = base64.StdPadding.

(** * Properties *)

(** ** The standard library models on known values *)

Example base64_rfc4648_f : base64.EncodeToString "f" = "Zg==".
Proof. reflexivity. Qed.

Example base64_rfc4648_fo : base64.EncodeToString "fo" = "Zm8=".
Proof. reflexivity. Qed.

Example base64_rfc4648_foobar : base64.EncodeToString "foobar" = "Zm9vYmFy".
Proof. reflexivity. Qed.

Example base64_basic_auth : base64.EncodeToString "bx:bx" = "Yng6Yng=".
Proof. reflexivity. Qed.

Example Contains_tcp_inside :
  strings.Contains "dial tcp 10.0.0.1:443: connect: connection refused" "tcp" = true.
Proof. reflexivity. Qed.

Example Contains_tcp_absent :
  strings.Contains "IAM token exchange request failed" "tcp" = false.
Proof. reflexivity. Qed.

(** ** The exchange on sample clients *)

Example refresh_token_request_sent :
  sent (finalState (invoke (serviceWith clientAccess)
                      (RefreshTokenForAccessToken "r"))) =
  [ {| rest.method := "POST";
       rest.rawUrl := "https://iam.cloud.ibm.com/oidc/token";
       rest.header := {[ "Authorization" := ["Basic Yng6Yng="];
                         "Accept" := ["application/json"] ]};
       rest.formParams := {[ "grant_type" := ["refresh_token"];
                             "refresh_token" := ["r"] ]} |} ].
Proof. reflexivity. Qed.

Example ims_token_after_two_refusals :
  match invoke (serviceWith clientIMSAfterTwoRefusals)
          (AccessTokenForIMSToken {| AccessToken_Token := "abc" |}) with
  | Done v s => Some (v, length (sent s), slept s)
  | Panic _ => None
  end =
  Some ((Some (anIMSToken {| IMSToken_UserID := 7; IMSToken_Token := "t" |}),
         None), 3%nat, 6 * time.Second).
Proof. reflexivity. Qed.

(** The retries hand over the request object as the client left it,
    with the [Content-Type] of the form-encoded body. *)
Example retried_requests_sent :
  sent (finalState (invoke (serviceWith clientIMSAfterTwoRefusals)
                      (IAMAPIKeyForIMSToken "k"))) =
  let fields : gmap string (list string) :=
    {[ "grant_type" := ["urn:ibm:params:oauth:grant-type:apikey"];
       "response_type" := ["ims_portal"];
       "apikey" := ["k"] ]} in
  let retry :=
    {| rest.method := "POST";
       rest.rawUrl := "https://iam.cloud.ibm.com/oidc/token";
       rest.header :=
         {[ "Content-Type" := ["application/x-www-form-urlencoded"];
            "Authorization" := ["Basic Yng6Yng="];
            "Accept" := ["application/json"] ]};
       rest.formParams := fields |} in
  [ {| rest.method := "POST";
       rest.rawUrl := "https://iam.cloud.ibm.com/oidc/token";
       rest.header := {[ "Authorization" := ["Basic Yng6Yng="];
                         "Accept" := ["application/json"] ]};
       rest.formParams := fields |};
    retry; retry ].
Proof. reflexivity. Qed.

Example wrapped_refusal_is_connection_error :
  IsConnectionError
    (util.NewError ErrorUnclassified "IAM token exchange request failed"
       [errors.New "dial tcp 10.0.0.1:443: connect: connection refused"]) = true.
Proof. reflexivity. Qed.

Example unexpected_response_is_no_connection_error :
  IsConnectionError
    (util.NewError ErrorUnclassified "Unexpected IAM token exchange response" [])
  = false.
Proof. reflexivity. Qed.

(** ** [strings.Contains] decides containment *)

Lemma HasPrefix_spec (s prefix : string) :
  strings.HasPrefix s prefix = true <-> exists suf, s = prefix +:+ suf.
Proof.
  revert s. induction prefix as [|p prefix IH]; intros s; simpl.
  - split; [intros _; by exists s | done].
  - destruct s as [|c s]; simpl.
    + split; [done | intros [suf H]; discriminate].
    + case_decide as Hpc.
      * subst c. rewrite IH. split; intros [suf H]; exists suf.
        -- by rewrite H.
        -- by injection H.
      * split; [done | intros [suf H]; injection H; congruence].
Qed.

Lemma Contains_spec (s substr : string) :
  strings.Contains s substr = true <-> strings.Substring substr s.
Proof.
  unfold strings.Substring. induction s as [|c s IH].
  - cbn [strings.Contains]. rewrite orb_false_r, HasPrefix_spec. split.
    + intros [suf H]. by exists "", suf.
    + intros [pre [suf H]]. destruct pre; [by exists suf | discriminate].
  - cbn [strings.Contains]. rewrite orb_true_iff, HasPrefix_spec, IH. split.
    + intros [[suf H] | [pre [suf H]]].
      * by exists "", suf.
      * exists (String c pre), suf. simpl. by rewrite H.
    + intros [pre [suf H]]. destruct pre as [|c' pre]; simpl in H.
      * left. by exists suf.
      * right. injection H as -> H. by exists pre, suf.
Qed.

Lemma rangeWrappedErrors_spec (wrappedErrors : list string) :
  rangeWrappedErrors wrappedErrors = true <->
  exists werr, werr ∈ wrappedErrors /\ strings.Substring "tcp" werr.
Proof.
  induction wrappedErrors as [|werr rest IH]; simpl.
  - split; [done | intros [w [Hw _]]; by apply not_elem_of_nil in Hw].
  - destruct (strings.Contains werr "tcp") eqn:Hc.
    + split; [intros _ | by intros]. exists werr.
      split; [left | by apply Contains_spec].
    + rewrite IH. split; intros [w [Hw Hs]].
      * exists w. split; [by right | done].
      * apply elem_of_cons in Hw as [-> | Hw].
        -- apply Contains_spec in Hs. congruence.
        -- by exists w.
Qed.

(** ** One attempt *)

(** Unfolds one call of [sendTokenExchangeRequest] down to the result of
    the HTTP client. *)
Ltac unfold_send :=
  unfold sendTokenExchangeRequest, mbind, M_bind, mret, M_ret,
    request_Set, client_Do, modify, panic;
  cbn [request sent set_request log_sent].

(** Splits the result of the HTTP client along the branches of
    [sendTokenExchangeRequest]. *)
Ltac branches_of_send :=
  match goal with
  | |- context [rest.Do_err ?d] =>
      destruct d as [[resp|] [e|] successV errorV]
  end;
  cbn [rest.Do_err rest.Do_resp rest.Do_successV rest.Do_errorV] in *;
  try done; repeat case_decide; try done.

Lemma withHeaders_idem (a : AuthConfiguration) (q : rest.Request) :
  withHeaders a (withHeaders a q) = withHeaders a q.
Proof.
  unfold withHeaders, rest.Set_. simpl. f_equal.
  rewrite (insert_insert_ne _ "Authorization" "Accept") by done.
  by rewrite !insert_insert_eq.
Qed.

Lemma Build_idem (q : rest.Request) : rest.Build (rest.Build q) = rest.Build q.
Proof.
  unfold rest.Build. destruct (decide (rest.formParams q = ∅)) as [He|Hne].
  - by rewrite decide_True.
  - cbn [rest.Set_ rest.formParams]. rewrite decide_False by done.
    unfold rest.Set_; cbn. by rewrite insert_insert_eq.
Qed.

Lemma withHeaders_Build (a : AuthConfiguration) (q : rest.Request) :
  withHeaders a (rest.Build q) = rest.Build (withHeaders a q).
Proof.
  unfold rest.Build. cbn [withHeaders rest.Set_ rest.formParams].
  destruct (decide (rest.formParams q = ∅)); [done|].
  unfold withHeaders, rest.Set_; cbn. f_equal.
  rewrite (insert_insert_ne _ "Authorization" "Content-Type") by done.
  by rewrite (insert_insert_ne _ "Accept" "Content-Type") by done.
Qed.

(** A request that carries the two headers still does after the client
    has built it, whatever the call. *)
Lemma withHeaders_handedOver (a : AuthConfiguration) (q : rest.Request)
    (n : nat) :
  withHeaders a q = q -> withHeaders a (handedOver q n) = handedOver q n.
Proof.
  intros Hq. destruct n as [|n]; cbn [handedOver]; [done|].
  by rewrite withHeaders_Build, Hq.
Qed.

Lemma Build_handedOver (q : rest.Request) (n : nat) :
  rest.Build (handedOver q n) = handedOver q (S n).
Proof. destruct n as [|n]; cbn [handedOver]; [done | apply Build_idem]. Qed.

Section Attempts.

Variable r : tokenExchangeRequest.

(** One send in terms of the outcome of the attempt: the headers are set
    on the request object, the request is handed to the client, which
    builds it, and the client's result decides the outcome. *)
Lemma sendTokenExchangeRequest_run (s : State) (q : rest.Request) :
  withHeaders (authConfig (tes r)) q = q ->
  withHeaders (authConfig (tes r)) (request s) =
    handedOver q (length (sent s)) ->
  sendTokenExchangeRequest r s =
    match attempt r q (length (sent s)) with
    | Some v =>
        Done v (set_request (handedOver q (S (length (sent s))))
                  (log_sent (handedOver q (length (sent s))) s))
    | None =>
        Panic (set_request (handedOver q (S (length (sent s))))
                 (log_sent (handedOver q (length (sent s))) s))
    end.
Proof.
  intros Hq Hs.
  pose proof (withHeaders_handedOver _ q (length (sent s)) Hq) as Hfix.
  unfold attempt. unfold_send.
  fold (withHeaders (authConfig (tes r)) (request s)).
  fold (withHeaders (authConfig (tes r)) (handedOver q (length (sent s)))).
  rewrite Hs, Hfix, length_fmap, length_seq, Build_handedOver.
  branches_of_send.
Qed.

Lemma retried_run (s : State) (q : rest.Request) :
  withHeaders (authConfig (tes r)) q = q ->
  withHeaders (authConfig (tes r)) (request s) =
    handedOver q (length (sent s)) ->
  retried r s =
    match attempt r q (length (sent s)) with
    | Some (v, e) =>
        Done (e, negb (IsConnectionError e))
             (set_err e (set_iamResp v
                (set_request (handedOver q (S (length (sent s))))
                   (log_sent (handedOver q (length (sent s))) s))))
    | None =>
        Panic (set_request (handedOver q (S (length (sent s))))
                 (log_sent (handedOver q (length (sent s))) s))
    end.
Proof.
  intros Hq Hs. unfold retried, mbind, M_bind.
  rewrite (sendTokenExchangeRequest_run s q Hq Hs).
  destruct (attempt r q (length (sent s))) as [[v e]|]; done.
Qed.

(** An attempt returns a response or an error, never neither. *)
Lemma attempt_not_neither (q : rest.Request) (n : nat) :
  attempt r q n <> Some (None, None).
Proof.
  unfold attempt. unfold_send. branches_of_send.
Qed.

(** With a client that honours the contract no attempt panics. *)
Lemma attempt_no_panic (q : rest.Request) (n : nat) :
  respondsOrFails (client r) -> attempt r q n <> None.
Proof.
  intros Hc. unfold attempt. unfold_send.
  match goal with
  | |- context [rest.Do_err (client r ?i ?q0)] => specialize (Hc i q0)
  end.
  branches_of_send. by destruct Hc.
Qed.

(** ** The retry loop *)

Lemma retryLoop_step (q : rest.Request) (interval : time.Duration)
    (retries : nat) (s : State) :
  withHeaders (authConfig (tes r)) q = q ->
  withHeaders (authConfig (tes r)) (request s) =
    handedOver q (length (sent s)) ->
  util.retryLoop retries interval (retried r) s =
    match attempt r q (length (sent s)) with
    | Some (v, e) =>
        let s1 :=
          set_err e (set_iamResp v
            (set_request (handedOver q (S (length (sent s))))
               (log_sent (handedOver q (length (sent s))) s))) in
        if IsConnectionError e then
          match retries with
          | O => Done e s1
          | S retries' =>
              util.retryLoop retries' interval (retried r)
                (add_slept interval s1)
          end
        else Done e s1
    | None =>
        Panic (set_request (handedOver q (S (length (sent s))))
                 (log_sent (handedOver q (length (sent s))) s))
    end.
Proof.
  intros Hq Hs.
  destruct retries as [|retries]; cbn [util.retryLoop];
    unfold mbind at 1, M_bind at 1; rewrite (retried_run s q Hq Hs);
    (destruct (attempt r q (length (sent s))) as [[v e]|]; [|reflexivity]);
    cbn zeta; (destruct (IsConnectionError e) eqn:Hc; cbn [negb]; [|reflexivity]);
    (destruct e as [ev|]; [reflexivity | discriminate Hc]).
Qed.

(** The loop makes some number [n] of attempts that form a [RetryRun];
    it hands over [n] requests, sleeps [n - 1] intervals and ends with
    the outcome of the last attempt. *)
Lemma retryLoop_run (q : rest.Request) (interval : time.Duration)
    (retries : nat) :
  withHeaders (authConfig (tes r)) q = q ->
  forall s : State,
    withHeaders (authConfig (tes r)) (request s) =
      handedOver q (length (sent s)) ->
    exists (n : nat) (s' : State),
      RetryRun r q (length (sent s)) (S retries) n /\
      sent s' = sent s ++ (handedOver q <$> seq (length (sent s)) n) /\
      slept s' = slept s + interval * Z.of_nat (n - 1) /\
      match attempt r q (length (sent s) + n - 1) with
      | Some (v, e) =>
          util.retryLoop retries interval (retried r) s = Done e s' /\
          iamResp s' = v
      | None => util.retryLoop retries interval (retried r) s = Panic s'
      end.
Proof.
  intros Hq.
  assert (Hone : forall m : nat, (m + 1 - 1)%nat = m) by (intros; lia).
  induction retries as [|retries IH]; intros s Hs;
    rewrite (retryLoop_step q interval _ s Hq Hs).
  - exists 1%nat. rewrite Hone.
    destruct (attempt r q (length (sent s))) as [[v e]|] eqn:Ha.
    + eexists (set_err e (set_iamResp v (set_request _ (log_sent _ s)))).
      split; [|split; [|split; [|split]]].
      * unfold RetryRun. split; [lia | split; intros; lia].
      * reflexivity.
      * cbn. lia.
      * cbn zeta. destruct (IsConnectionError e); reflexivity.
      * reflexivity.
    + eexists (set_request _ (log_sent _ s)). split; [|split; [|split]].
      * unfold RetryRun. split; [lia | split; intros; lia].
      * reflexivity.
      * cbn. lia.
      * reflexivity.
  - destruct (attempt r q (length (sent s))) as [[v e]|] eqn:Ha.
    + cbn zeta. destruct (IsConnectionError e) eqn:Hc.
      * set (s1 := set_err e (set_iamResp v
                     (set_request (handedOver q (S (length (sent s))))
                        (log_sent (handedOver q (length (sent s))) s)))).
        assert (Hlen : length (sent (add_slept interval s1)) = S (length (sent s))).
        { cbn. rewrite length_app. cbn. lia. }
        assert (Hs1 : withHeaders (authConfig (tes r))
                        (request (add_slept interval s1)) =
                      handedOver q (length (sent (add_slept interval s1)))).
        { rewrite Hlen. cbn [request add_slept s1 set_err set_iamResp set_request].
          by apply withHeaders_handedOver. }
        destruct (IH (add_slept interval s1) Hs1)
          as (n & s' & Hrun & Hsent & Hslept & Hres).
        rewrite Hlen in Hrun, Hres, Hsent.
        destruct Hrun as ((Hn1 & Hn2) & Hbefore & Hlast).
        exists (S n), s'. split; [|split; [|split]].
        -- unfold RetryRun. split; [lia | split].
           ++ intros j Hj. destruct j as [|j].
              ** rewrite Nat.add_0_r. unfold retryable. by rewrite Ha.
              ** replace (length (sent s) + S j)%nat
                   with (S (length (sent s)) + j)%nat by lia.
                 apply Hbefore. lia.
           ++ intros Hlt.
              replace (length (sent s) + S n - 1)%nat
                with (S (length (sent s)) + n - 1)%nat by lia.
              apply Hlast. lia.
        -- rewrite Hsent. cbn [sent add_slept s1 set_err set_iamResp set_request log_sent].
           rewrite <- app_assoc. reflexivity.
        -- rewrite Hslept. unfold s1.
           cbn [slept add_slept set_err set_iamResp log_sent set_request].
           replace (S n - 1)%nat with (S (n - 1)) by lia.
           rewrite Nat2Z.inj_succ. lia.
        -- replace (length (sent s) + S n - 1)%nat
             with (S (length (sent s)) + n - 1)%nat by lia.
           exact Hres.
      * eexists 1%nat, (set_err e (set_iamResp v (set_request _ (log_sent _ s)))).
        rewrite Hone, Ha. split; [|split; [|split; [|split]]].
        -- unfold RetryRun. split; [lia | split].
           ++ intros j Hj; lia.
           ++ intros _. rewrite Hone. unfold retryable. by rewrite Ha.
        -- reflexivity.
        -- cbn. lia.
        -- reflexivity.
        -- reflexivity.
    + eexists 1%nat, (set_request _ (log_sent _ s)).
      rewrite Hone, Ha. split; [|split; [|split]].
      * unfold RetryRun. split; [lia | split].
        -- intros j Hj; lia.
        -- intros _. rewrite Hone. unfold retryable. by rewrite Ha.
      * reflexivity.
      * cbn. lia.
      * reflexivity.
Qed.

(** When the first [k] attempts are retryable and attempt [k] is not,
    the run ends with attempt [k]. *)
Lemma RetryRun_stops_at (q : rest.Request) (allowed n k : nat) :
  RetryRun r q 0 allowed n ->
  (k < allowed)%nat ->
  (forall j : nat, (j < k)%nat -> retryable r q j = true) ->
  retryable r q k = false ->
  (n - 1)%nat = k.
Proof.
  intros ((Hn1 & Hn2) & Hbefore & Hlast) Hk Hretry Hstop.
  destruct (Nat.lt_trichotomy (n - 1) k) as [Hlt | [Heq | Hgt]].
  - assert (Hf : retryable r q (0 + n - 1) = false) by (apply Hlast; lia).
    rewrite Nat.add_0_l in Hf. rewrite Hretry in Hf by done. discriminate.
  - done.
  - assert (Ht : retryable r q (0 + k) = true) by (apply Hbefore; lia).
    rewrite Nat.add_0_l in Ht. congruence.
Qed.

(** ** The exchange functions *)

Lemma exchangeWith_run {T : Type} (proj : tokenExchangeResponse -> T)
    (s : State) (q : rest.Request) :
  withHeaders (authConfig (tes r)) q = q ->
  withHeaders (authConfig (tes r)) (request s) =
    handedOver q (length (sent s)) ->
  exists (n : nat) (s' : State),
    RetryRun r q (length (sent s))
      (S (Z.to_nat (util.MaxAttempts (errorRetrier r) - 1))) n /\
    sent s' = sent s ++ (handedOver q <$> seq (length (sent s)) n) /\
    slept s' =
      slept s + util.RetryInterval (errorRetrier r) * Z.of_nat (n - 1) /\
    exchangeWith proj r s =
      outcomeOf proj (attempt r q (length (sent s) + n - 1)) s'.
Proof.
  intros Hq Hs. unfold exchangeWith.
  set (s0 := set_err None (set_iamResp None s)).
  destruct (retryLoop_run q (util.RetryInterval (errorRetrier r))
              (Z.to_nat (util.MaxAttempts (errorRetrier r) - 1)) Hq s0 Hs)
    as (n & s' & Hrun & Hsent & Hslept & Hres).
  pose proof (attempt_not_neither q (length (sent s0) + n - 1)) as Hnn.
  exists n.
  unfold mbind, M_bind, modify, gets, util.ErrorRetry; fold s0.
  change (length (sent s)) with (length (sent s0)).
  destruct (attempt r q (length (sent s0) + n - 1)) as [[[body|] [e|]]|].
  - destruct Hres as [Hres Hresp]. rewrite Hres.
    exists (set_err (Some e) s').
    split; [exact Hrun | split; [exact Hsent | split; [exact Hslept | reflexivity]]].
  - destruct Hres as [Hres Hresp]. rewrite Hres.
    exists (set_err None s').
    split; [exact Hrun | split; [exact Hsent | split; [exact Hslept |]]].
    cbn [outcomeOf iamResp set_err]. by rewrite Hresp.
  - destruct Hres as [Hres Hresp]. rewrite Hres.
    exists (set_err (Some e) s').
    split; [exact Hrun | split; [exact Hsent | split; [exact Hslept | reflexivity]]].
  - exfalso. by apply Hnn.
  - rewrite Hres. exists s'.
    split; [exact Hrun | split; [exact Hsent | split; [exact Hslept | reflexivity]]].
Qed.

Lemma exchangeForAccessToken_shape :
  exchangeForAccessToken r =
  exchangeWith (fun body => {| AccessToken_Token := resp_AccessToken body |}) r.
Proof. reflexivity. Qed.

Lemma exchangeForIMSToken_shape :
  exchangeForIMSToken r =
  exchangeWith (fun body => {| IMSToken_UserID := resp_ImsUserID body;
                               IMSToken_Token := resp_ImsToken body |}) r.
Proof. reflexivity. Qed.

End Attempts.

(** ** The public operations *)

Lemma liftResult_outcomeOf {A B : Type} (f : A -> B)
    (proj : tokenExchangeResponse -> A)
    (last : option (option tokenExchangeResponse * error)) (s' : State) :
  liftResult f (outcomeOf proj last s') =
  outcomeOf (fun body => f (proj body)) last s'.
Proof. by destruct last as [[[body|] [e|]]|]. Qed.

Lemma finalState_outcomeOf {T : Type} (proj : tokenExchangeResponse -> T)
    (last : option (option tokenExchangeResponse * error)) (s' : State) :
  finalState (outcomeOf proj last s') = s'.
Proof. by destruct last as [[[body|] [e|]]|]. Qed.

Lemma liftResult_exactlyOne {A B : Type} (f : A -> B)
    (res : Result (option A * error)) :
  exactlyOne (liftResult f res) -> exactlyOne res.
Proof.
  destruct res as [[[t|] [e|]] s | s]; intros [(t' & s' & H) | (e' & s' & H)];
    cbn in H; try discriminate.
  - left. by exists t, s.
  - right. by exists e, s.
Qed.

(** A public operation is its exchange function run on the request that
    carries the operation's form fields. *)
Lemma invoke_unfold (tes0 : tokenExchangeService) (op : operation) :
  invoke tes0 op =
  match op with
  | RefreshTokenForAccessToken _ | IAMAPIKeyForAccessToken _ =>
      liftResult anAccessToken
        (exchangeForAccessToken (requestFor tes0)
           (set_request (fieldsOnly (authConfig tes0) op) freshState))
  | AccessTokenForIMSToken _ | IAMAPIKeyForIMSToken _ =>
      liftResult anIMSToken
        (exchangeForIMSToken (requestFor tes0)
           (set_request (fieldsOnly (authConfig tes0) op) freshState))
  end.
Proof. by destruct op. Qed.

(** The first send turns the request with the fields into the request
    of the specification. *)
Lemma withHeaders_fieldsOnly (a : AuthConfiguration) (op : operation) :
  withHeaders a (fieldsOnly a op) = requestOf a op.
Proof. reflexivity. Qed.

(** The request of the specification carries the two headers. *)
Lemma withHeaders_requestOf (a : AuthConfiguration) (op : operation) :
  withHeaders a (requestOf a op) = requestOf a op.
Proof. unfold requestOf. apply withHeaders_idem. Qed.

(** The run of a public operation: at most 40 attempts forming a
    [RetryRun]; attempt [i] hands the client the shared request object
    as it is after [i] calls of the client; three seconds are slept
    between two attempts, and the outcome of the last attempt is
    returned. *)
Lemma invoke_run (tes0 : tokenExchangeService) (op : operation) :
  exists (n : nat) (s' : State),
    RetryRun (requestFor tes0) (requestOf (authConfig tes0) op) 0 40 n /\
    sent s' = (handedOver (requestOf (authConfig tes0) op) <$> seq 0 n) /\
    slept s' = 3 * time.Second * Z.of_nat (n - 1) /\
    invoke tes0 op =
      outcomeOf (tokenOf op)
        (attempt (requestFor tes0) (requestOf (authConfig tes0) op) (n - 1)) s'.
Proof.
  rewrite invoke_unfold.
  set (s := set_request (fieldsOnly (authConfig tes0) op) freshState).
  pose proof (withHeaders_requestOf (authConfig tes0) op) as Hq.
  assert (Hs : withHeaders (authConfig (tes (requestFor tes0))) (request s) =
               handedOver (requestOf (authConfig tes0) op) (length (sent s)))
    by reflexivity.
  change (authConfig tes0) with (authConfig (tes (requestFor tes0))) in Hq at 1.
  destruct op as [refreshToken | accessToken | iamAPIKey | iamAPIKey].
  - rewrite exchangeForAccessToken_shape.
    destruct (exchangeWith_run (requestFor tes0)
                (fun body => {| AccessToken_Token := resp_AccessToken body |})
                s _ Hq Hs) as (n & s' & Hrun & Hsent & Hslept & Hres).
    exists n, s'. rewrite Hres, liftResult_outcomeOf.
    split; [exact Hrun | split; [exact Hsent | split; [exact Hslept | reflexivity]]].
  - rewrite exchangeForIMSToken_shape.
    destruct (exchangeWith_run (requestFor tes0)
                (fun body => {| IMSToken_UserID := resp_ImsUserID body;
                                IMSToken_Token := resp_ImsToken body |})
                s _ Hq Hs) as (n & s' & Hrun & Hsent & Hslept & Hres).
    exists n, s'. rewrite Hres, liftResult_outcomeOf.
    split; [exact Hrun | split; [exact Hsent | split; [exact Hslept | reflexivity]]].
  - rewrite exchangeForIMSToken_shape.
    destruct (exchangeWith_run (requestFor tes0)
                (fun body => {| IMSToken_UserID := resp_ImsUserID body;
                                IMSToken_Token := resp_ImsToken body |})
                s _ Hq Hs) as (n & s' & Hrun & Hsent & Hslept & Hres).
    exists n, s'. rewrite Hres, liftResult_outcomeOf.
    split; [exact Hrun | split; [exact Hsent | split; [exact Hslept | reflexivity]]].
  - rewrite exchangeForAccessToken_shape.
    destruct (exchangeWith_run (requestFor tes0)
                (fun body => {| AccessToken_Token := resp_AccessToken body |})
                s _ Hq Hs) as (n & s' & Hrun & Hsent & Hslept & Hres).
    exists n, s'. rewrite Hres, liftResult_outcomeOf.
    split; [exact Hrun | split; [exact Hsent | split; [exact Hslept | reflexivity]]].
Qed.

(** The request of the specification has form fields: the client gives
    it the form-encoded [Content-Type]. *)
Lemma Build_requestOf (a : AuthConfiguration) (op : operation) :
  rest.Build (requestOf a op) =
  rest.Set_ "Content-Type" "application/x-www-form-urlencoded" (requestOf a op).
Proof.
  unfold rest.Build. rewrite decide_False; [done|].
  destruct op; cbn [requestOf rest.formParams formFieldsOf];
    apply insert_non_empty.
Qed.

(** The requests handed over in [n] attempts: the request itself, then
    the request as the client built it. *)
Lemma handedOver_seq (q : rest.Request) (n : nat) :
  (handedOver q <$> seq 0 (S n)) = q :: replicate n (rest.Build q).
Proof.
  cbn [seq fmap list_fmap handedOver]. f_equal.
  generalize 0%nat. induction n as [|n IH]; intros i; [done|].
  cbn [seq fmap list_fmap replicate handedOver]. f_equal. apply IH.
Qed.

(** A 200 response without error is returned as the success body. *)
Lemma attempt_200 (tes0 : tokenExchangeService) (op : operation) (n : nat)
    (resp : rest.Response) :
  let d := httpClient tes0 n
             (handedOver (requestOf (authConfig tes0) op) n) in
  rest.Do_err d = None ->
  rest.Do_resp d = Some resp ->
  rest.StatusCode resp = 200 ->
  attempt (requestFor tes0) (requestOf (authConfig tes0) op) n =
    Some (Some (rest.Do_successV d), None).
Proof.
  intros d Herr Hresp Hstatus.
  unfold attempt. unfold_send. cbn [requestFor client tes].
  fold (withHeaders (authConfig tes0)
          (handedOver (requestOf (authConfig tes0) op) n)).
  rewrite length_fmap, length_seq.
  rewrite (withHeaders_handedOver _ _ n (withHeaders_requestOf _ op)).
  fold d. rewrite Herr, Hresp. by rewrite decide_True.
Qed.

(** * The specified properties *)

(** C1: for every 200-status response the exchange operations map the
    parsed success body to the caller's token type and return no error:
    when the attempts before number [k] all fail with connection errors
    and the client answers attempt [k], on the request handed to it
    then, with status 200 and no error, the operation returns [AccessToken{Token: access_token}] (access-token
    operations) or [IMSToken{UserID: ims_user_id, Token: ims_token}]
    (IMS-token operations) of that answer's body, with a nil error. *)
Theorem exchange_maps_success_body_to_token (tes0 : tokenExchangeService)
    (op : operation) (k : nat) (resp : rest.Response) :
  let q := requestOf (authConfig tes0) op in
  let d := httpClient tes0 k (handedOver q k) in
  (k < 40)%nat ->
  (forall j : nat, (j < k)%nat -> retryable (requestFor tes0) q j = true) ->
  rest.Do_err d = None ->
  rest.Do_resp d = Some resp ->
  rest.StatusCode resp = 200 ->
  exists s' : State,
    invoke tes0 op = Done (Some (tokenOf op (rest.Do_successV d)), None) s'.
Proof.
  intros q d Hk Hretry Herr Hresp Hstatus.
  pose proof (attempt_200 tes0 op k resp Herr Hresp Hstatus) as Ha.
  destruct (invoke_run tes0 op) as (n & s' & Hrun & _ & _ & Hres).
  assert (Hstop : retryable (requestFor tes0) q k = false).
  { unfold retryable, q. by rewrite Ha. }
  rewrite (RetryRun_stops_at _ _ _ _ _ Hrun Hk Hretry Hstop) in Hres.
  exists s'. rewrite Hres. fold q. unfold q at 1. by rewrite Ha.
Qed.

(** The two examples of the specification: the body
    [{"access_token":"abc"}] yields [AccessToken{Token:"abc"}], and,
    after two refused connections, the body
    [{"ims_token":"t","ims_user_id":7}] yields
    [IMSToken{UserID:7, Token:"t"}]. *)
Lemma exchange_maps_success_body_to_token_witness :
  (exists s' : State,
     invoke (serviceWith clientAccess) (RefreshTokenForAccessToken "r") =
       Done (Some (anAccessToken {| AccessToken_Token := "abc" |}), None) s') /\
  (exists s' : State,
     invoke (serviceWith clientIMSAfterTwoRefusals) (IAMAPIKeyForIMSToken "k") =
       Done (Some (anIMSToken {| IMSToken_UserID := 7; IMSToken_Token := "t" |}),
             None) s').
Proof.
  split.
  - apply (exchange_maps_success_body_to_token (serviceWith clientAccess)
             (RefreshTokenForAccessToken "r") 0 {| rest.StatusCode := 200 |}).
    + lia.
    + intros j Hj. lia.
    + reflexivity.
    + reflexivity.
    + reflexivity.
  - apply (exchange_maps_success_body_to_token
             (serviceWith clientIMSAfterTwoRefusals)
             (IAMAPIKeyForIMSToken "k") 2 {| rest.StatusCode := 200 |}).
    + lia.
    + intros j Hj. destruct j as [|[|j]]; [reflexivity | reflexivity | lia].
    + reflexivity.
    + reflexivity.
    + reflexivity.
Defined.

(** C2, as the code has it: for a non-200 response with a non-empty
    [errorMessage], the error is of kind
    [ProviderAccountTemporarilyLocked] if and only if the nested
    requirements code is the account-lock sentinel, and it then wraps the
    [FailedTokenExchange] error; for any other code the result is the
    [FailedTokenExchange] error itself, whose message carries
    [errorMessage] and whose single cause is the text
    [errorDetails code: error].  The error type ([errorCode]) is not part
    of the error. *)
Theorem account_locked_iff_sentinel_code (r : tokenExchangeRequest)
    (s : State) (resp : rest.Response) :
  let d := client r (length (sent s))
             (withHeaders (authConfig (tes r)) (request s)) in
  let body := rest.Do_errorV d in
  let code := Requirements_Code (Requirements body) in
  rest.Do_err d = None ->
  rest.Do_resp d = Some resp ->
  rest.StatusCode resp <> 200 ->
  ErrorMessage body <> "" ->
  exists (e : errorValue) (s' : State),
    sendTokenExchangeRequest r s = Done (None, Some e) s' /\
    (Code e = Some ErrorProviderAccountTemporarilyLocked <->
       code = AccountLocked) /\
    (code = AccountLocked ->
       Some e = util.NewError ErrorProviderAccountTemporarilyLocked
                  "Infrastructure account is temporarily locked"
                  [Some (failedTokenExchange body)]) /\
    (code <> AccountLocked ->
       e = failedTokenExchange body /\ Code e = Some ErrorFailedTokenExchange).
Proof.
  intros d body code Herr Hresp Hstatus Hmsg.
  unfold_send.
  fold (withHeaders (authConfig (tes r)) (request s)). fold d.
  rewrite Herr, Hresp. rewrite decide_False by done.
  fold body. rewrite decide_True by done. fold code.
  destruct (decide (code = "SoftLayer_Exception_User_Customer_AccountLocked"))
    as [Hcode | Hcode].
  - eexists _, _. split; [reflexivity|]. split; [|split].
    + by split.
    + intros _. reflexivity.
    + intros Hne. by destruct Hne.
  - eexists _, _. split; [reflexivity|]. split; [|split].
    + split; [intros H; discriminate H | intros H; by destruct Hcode].
    + intros H. by destruct Hcode.
    + intros _. by split.
Qed.

(** The example of the specification: the sentinel code yields the
    locked kind. *)
Lemma account_locked_iff_sentinel_code_witness :
  exists (e : errorValue) (s' : State),
    sendTokenExchangeRequest
      (requestFor (serviceWith (clientRejected AccountLocked "X"))) freshState =
      Done (None, Some e) s' /\
    Code e = Some ErrorProviderAccountTemporarilyLocked.
Proof.
  destruct (account_locked_iff_sentinel_code
              (requestFor (serviceWith (clientRejected AccountLocked "X")))
              freshState {| rest.StatusCode := 400 |})
    as (e & s' & Hsend & Hiff & _); try done.
  exists e, s'. split; [exact Hsend | apply Hiff; reflexivity].
Defined.

(** C2 as stated fails: the [FailedTokenExchange] error does not combine
    the error type.  For the body with [errorCode] BXNIM0415E the error
    mentions the message, the details and the nested code and error, but
    not the type; the body with another type yields the same error. *)
Lemma failed_exchange_error_omits_error_type :
  exists (e : errorValue) (s1 s2 : State),
    sendTokenExchangeRequest
      (requestFor (serviceWith (clientRejected "NotAllowed" "BXNIM0415E")))
      freshState = Done (None, Some e) s1 /\
    Code e = Some ErrorFailedTokenExchange /\
    mentions (Some e) "bad" = true /\
    mentions (Some e) "no such key" = true /\
    mentions (Some e) "NotAllowed" = true /\
    mentions (Some e) "locked" = true /\
    mentions (Some e) "BXNIM0415E" = false /\
    sendTokenExchangeRequest
      (requestFor (serviceWith (clientRejected "NotAllowed" "OTHER")))
      freshState = Done (None, Some e) s2.
Proof. eexists _, _, _. repeat split. Qed.

(** C3: [IsConnectionError] returns true if and only if at least one
    layer of the error's chain of underlying causes, rendered as text,
    contains the substring tcp. *)
Theorem IsConnectionError_iff_chain_contains_tcp (e : error) :
  IsConnectionError e = true <->
  exists layer : string,
    layer ∈ util.ErrorDeepUnwrapString e /\ strings.Substring "tcp" layer.
Proof.
  destruct e as [v|]; simpl.
  - apply rangeWrappedErrors_spec.
  - split; [done | intros [w [Hw _]]; by apply not_elem_of_nil in Hw].
Qed.

(** C4: every exchange operation runs the send-and-classify attempt
    under the bounded retry policy.  It makes [n] attempts, between 1 and
    40, each one call of the HTTP client, and sleeps three seconds after
    each but the last; an attempt is
    followed by another only when it failed with an error classified as
    a connection error, any other outcome ends the run at once; the
    result is that of the last attempt made, so when all 40 attempts
    fail with connection errors the error of the last one is returned. *)
Theorem exchange_runs_under_bounded_retry (tes0 : tokenExchangeService)
    (op : operation) :
  let r := requestFor tes0 in
  let q := requestOf (authConfig tes0) op in
  exists (n : nat) (s' : State),
    invoke tes0 op = outcomeOf (tokenOf op) (attempt r q (n - 1)) s' /\
    (1 <= n <= 40)%nat /\
    length (sent s') = n /\
    slept s' = 3 * time.Second * Z.of_nat (n - 1) /\
    (forall j : nat, (j + 1 < n)%nat -> retryable r q j = true) /\
    (forall j : nat, (j < n)%nat -> retryable r q j = false -> n = (j + 1)%nat) /\
    ((n < 40)%nat -> retryable r q (n - 1) = false) /\
    ((forall j : nat, (j < 40)%nat -> retryable r q j = true) ->
       n = 40%nat /\
       exists (v : option tokenExchangeResponse) (e : errorValue),
         attempt r q 39 = Some (v, Some e) /\
         invoke tes0 op = Done (None, Some e) s').
Proof.
  intros r q.
  destruct (invoke_run tes0 op)
    as (n & s' & ((Hn1 & Hn2) & Hbefore & Hlast) & Hsent & Hslept & Hres).
  fold r q in Hbefore, Hlast, Hsent, Hres.
  exists n, s'.
  split; [exact Hres|]. split; [lia|].
  split; [by rewrite Hsent, length_fmap, length_seq|].
  split; [exact Hslept|]. split; [exact Hbefore|].
  split; [|split].
  - intros j Hj Hstop.
    destruct (decide (j + 1 < n)%nat) as [Hlt|Hge]; [|lia].
    specialize (Hbefore j Hlt). cbn in Hbefore. congruence.
  - intros Hlt. specialize (Hlast Hlt). by rewrite Nat.add_0_l in Hlast.
  - intros Hall.
    assert (Hn : n = 40%nat).
    { destruct (decide (n < 40)%nat) as [Hlt|Hge]; [|lia].
      specialize (Hlast Hlt). rewrite Nat.add_0_l in Hlast.
      rewrite Hall in Hlast by lia. discriminate. }
    split; [exact Hn|]. subst n.
    specialize (Hall 39%nat ltac:(lia)). unfold retryable in Hall.
    change (40 - 1)%nat with 39%nat in Hres.
    destruct (attempt r q 39) as [[v [e|]]|]; try discriminate.
    exists v, e. split; [reflexivity|]. rewrite Hres. by destruct v.
Qed.

(** With every connection refused the operation makes 40 attempts,
    sleeps 39 times three seconds and returns the error. *)
Lemma exchange_runs_under_bounded_retry_witness :
  exists (e : errorValue) (s' : State),
    invoke (serviceWith clientRefused) (IAMAPIKeyForAccessToken "k") =
      Done (None, Some e) s' /\
    length (sent s') = 40%nat /\
    slept s' = 117 * time.Second.
Proof.
  destruct (exchange_runs_under_bounded_retry (serviceWith clientRefused)
              (IAMAPIKeyForAccessToken "k"))
    as (n & s' & _ & _ & Hsent & Hslept & _ & _ & _ & Hall).
  destruct Hall as (-> & v & e & _ & Hres); [intros j _; reflexivity|].
  exists e, s'. split; [exact Hres|]. rewrite Hslept.
  split; [exact Hsent | reflexivity].
Defined.

(** C5: every exchange operation builds exactly the request of the
    specification.  The first request handed to the HTTP client is the
    POST to [{IamURL}/oidc/token] with the Basic-Auth and Accept headers
    and the operation's form fields, and nothing else.  Every retry
    hands over the same request object, which by then also carries the
    [Content-Type] header the client set on it when it built the body;
    so every request handed over has the method, the URL, the form
    fields and the two headers of the specification, and no header
    besides these two and [Content-Type]. *)
Theorem exchange_sends_specified_request (tes0 : tokenExchangeService)
    (op : operation) :
  let a := authConfig tes0 in
  let q := requestOf a op in
  (exists k : nat,
     (k < 40)%nat /\
     sent (finalState (invoke tes0 op)) =
       q :: replicate k
              (rest.Set_ "Content-Type" "application/x-www-form-urlencoded" q)) /\
  forall q' : rest.Request,
    q' ∈ sent (finalState (invoke tes0 op)) ->
    rest.method q' = "POST" /\
    rest.rawUrl q' = IamURL a +:+ "/oidc/token" /\
    rest.formParams q' = formFieldsOf op /\
    rest.header q' !! "Authorization" =
      Some ["Basic " +:+
            base64.EncodeToString (IamClientID a +:+ ":" +:+ IamClientSecret a)] /\
    rest.header q' !! "Accept" = Some ["application/json"] /\
    forall key : string,
      key <> "Authorization" -> key <> "Accept" -> key <> "Content-Type" ->
      rest.header q' !! key = None.
Proof.
  intros a q.
  destruct (invoke_run tes0 op)
    as (n & s' & ((Hn1 & Hn2) & _) & Hsent & _ & Hres).
  rewrite Hres, finalState_outcomeOf, Hsent.
  destruct n as [|k]; [lia|]. rewrite handedOver_seq, Build_requestOf.
  fold a q.
  split; [exists k; split; [lia | reflexivity]|].
  intros q' Hq'.
  assert (Hcases : q' = q \/
            q' = rest.Set_ "Content-Type" "application/x-www-form-urlencoded" q).
  { apply elem_of_cons in Hq' as [-> | Hq']; [by left | right].
    by apply elem_of_replicate in Hq' as [-> _]. }
  destruct Hcases as [-> | ->];
    cbn [q requestOf rest.Set_ rest.method rest.rawUrl rest.formParams
         rest.header];
    (split; [reflexivity|]); (split; [reflexivity|]); (split; [reflexivity|]);
    (split; [rewrite ?lookup_insert_ne by done; apply lookup_insert_eq|]);
    (split; [rewrite ?lookup_insert_ne by done; apply lookup_singleton_eq|]);
    intros key H1 H2 H3;
    rewrite ?lookup_insert_ne by done; by apply lookup_singleton_ne.
Qed.

(** C6, as the code has it: one attempt produces an error of the
    [Unclassified] kind if and only if either the client call returns an
    error, with or without a response (the error then wraps the client's
    error), or the call returns no error and a non-200 response with an
    empty [errorMessage] (the error then has a fixed message and no
    cause); every other failing attempt produces a [FailedTokenExchange]
    or [ProviderAccountTemporarilyLocked] error. *)
Theorem unclassified_iff_client_error_or_empty_message
    (r : tokenExchangeRequest) (s : State) :
  let d := client r (length (sent s))
             (withHeaders (authConfig (tes r)) (request s)) in
  (rest.Do_err d <> None ->
     exists s' : State,
       sendTokenExchangeRequest r s =
         Done (None, util.NewError ErrorUnclassified
                       "IAM token exchange request failed" [rest.Do_err d]) s') /\
  (forall resp : rest.Response,
     rest.Do_err d = None -> rest.Do_resp d = Some resp ->
     rest.StatusCode resp <> 200 -> ErrorMessage (rest.Do_errorV d) = "" ->
     exists s' : State,
       sendTokenExchangeRequest r s =
         Done (None, util.NewError ErrorUnclassified
                       "Unexpected IAM token exchange response" []) s') /\
  (forall (v : option tokenExchangeResponse) (e : errorValue) (s' : State),
     sendTokenExchangeRequest r s = Done (v, Some e) s' ->
     (Code e = Some ErrorUnclassified <->
        rest.Do_err d <> None \/
        (rest.Do_err d = None /\
         exists resp : rest.Response,
           rest.Do_resp d = Some resp /\ rest.StatusCode resp <> 200 /\
           ErrorMessage (rest.Do_errorV d) = "")) /\
     (Code e <> Some ErrorUnclassified ->
        Code e = Some ErrorFailedTokenExchange \/
        Code e = Some ErrorProviderAccountTemporarilyLocked)).
Proof.
  intros d. unfold_send.
  fold (withHeaders (authConfig (tes r)) (request s)). fold d.
  destruct d as [resp e0 successV errorV].
  cbn [rest.Do_err rest.Do_resp rest.Do_successV rest.Do_errorV].
  split; [|split].
  - intros He. destruct e0 as [e0|]; [|done]. by eexists.
  - intros resp' -> -> Hstatus Hmsg.
    rewrite decide_False by done. rewrite decide_False by (by intros H; apply H).
    by eexists.
  - intros v e s'. destruct e0 as [e0|].
    + intros [= <- <- <-]. split; [|intros H; by destruct H].
      split; [intros _; by left | done].
    + destruct resp as [resp|]; [|done].
      destruct (decide (rest.StatusCode resp = 200)) as [H200|H200]; [done|].
      destruct (decide (ErrorMessage errorV ≠ "")) as [Hmsg|Hmsg].
      * destruct (decide (Requirements_Code (Requirements errorV) = _));
          intros [= <- <- <-]; (split; [|intros _; by (left + right)]);
          (split; [intros H; discriminate H |]);
          (intros [H | (_ & resp' & _ & _ & H)]; [done | by destruct Hmsg]).
      * intros [= <- <- <-]. split; [|intros H; by destruct H].
        split; [intros _ | done]. right. split; [done|]. exists resp.
        split; [done|]. split; [done|].
        by destruct (decide (ErrorMessage errorV = "")); [|destruct Hmsg].
Qed.

(** A refused connection and a 500 with an empty body both yield an
    [Unclassified] error. *)
Lemma unclassified_iff_client_error_or_empty_message_witness :
  (exists s' : State,
     sendTokenExchangeRequest (requestFor (serviceWith clientRefused)) freshState =
       Done (None,
             util.NewError ErrorUnclassified "IAM token exchange request failed"
               [errors.New "dial tcp 10.0.0.1:443: connect: connection refused"])
            s') /\
  (exists s' : State,
     sendTokenExchangeRequest (requestFor (serviceWith (clientEmptyBody 500))) freshState =
       Done (None,
             util.NewError ErrorUnclassified
               "Unexpected IAM token exchange response" [])
            s').
Proof.
  split.
  - apply (proj1 (unclassified_iff_client_error_or_empty_message
                    (requestFor (serviceWith clientRefused)) freshState)).
    discriminate.
  - apply (proj1 (proj2 (unclassified_iff_client_error_or_empty_message
                           (requestFor (serviceWith (clientEmptyBody 500))) freshState))
             {| rest.StatusCode := 500 |}).
    + reflexivity.
    + reflexivity.
    + discriminate.
    + reflexivity.
Defined.

(** C6 as stated fails on two counts.  When the body of a 200 response
    does not decode, the client returns the response together with an
    error, and the attempt produces an [Unclassified] error although a
    response is there and its status is 200.  And the [Unclassified]
    error for a non-200 response with an empty [errorMessage] does not
    capture the status code: status 500 and status 404 yield the same
    error, which mentions neither number. *)
Lemma unclassified_with_200_response :
  (exists (e : errorValue) (s' : State) (resp : rest.Response),
     sendTokenExchangeRequest (requestFor (serviceWith clientGarbled200))
       freshState = Done (None, Some e) s' /\
     Code e = Some ErrorUnclassified /\
     rest.Do_resp
       (clientGarbled200 0%nat (withHeaders sampleAuth (request freshState))) =
       Some resp /\
     rest.StatusCode resp = 200) /\
  (exists (e : errorValue) (s1 s2 : State),
     sendTokenExchangeRequest (requestFor (serviceWith (clientEmptyBody 500)))
       freshState = Done (None, Some e) s1 /\
     sendTokenExchangeRequest (requestFor (serviceWith (clientEmptyBody 404)))
       freshState = Done (None, Some e) s2 /\
     Code e = Some ErrorUnclassified /\
     mentions (Some e) "500" = false /\
     mentions (Some e) "404" = false).
Proof.
  split.
  - eexists _, _, _. repeat split.
  - eexists _, _, _. repeat split.
Qed.

(** C7: every call of one of the four exchange operations returns
    exactly one of a token, of the type of the invoked function, and an
    error, given that the HTTP client never reports neither a response
    nor an error. *)
Theorem exchange_returns_exactly_one (tes0 : tokenExchangeService) :
  respondsOrFails (httpClient tes0) ->
  (forall refreshToken : string,
     exactlyOne (run (ExchangeRefreshTokenForAccessToken tes0 refreshToken))) /\
  (forall accessToken : AccessToken,
     exactlyOne (run (ExchangeAccessTokenForIMSToken tes0 accessToken))) /\
  (forall iamAPIKey : string,
     exactlyOne (run (ExchangeIAMAPIKeyForIMSToken tes0 iamAPIKey))) /\
  (forall iamAPIKey : string,
     exactlyOne (run (ExchangeIAMAPIKeyForAccessToken tes0 iamAPIKey))).
Proof.
  intros Hc.
  assert (Hop : forall op, exactlyOne (invoke tes0 op)).
  { intros op. destruct (invoke_run tes0 op) as (n & s' & _ & _ & _ & Hres).
    pose proof (attempt_no_panic (requestFor tes0)
                  (requestOf (authConfig tes0) op) (n - 1) Hc) as Hnp.
    pose proof (attempt_not_neither (requestFor tes0)
                  (requestOf (authConfig tes0) op) (n - 1)) as Hnn.
    rewrite Hres.
    destruct (attempt _ _ _) as [[[body|] [e|]]|]; try done.
    - right. by exists e, s'.
    - left. by eexists _, s'.
    - right. by exists e, s'. }
  repeat split.
  - intros x. exact (liftResult_exactlyOne _ _ (Hop (RefreshTokenForAccessToken x))).
  - intros x. exact (liftResult_exactlyOne _ _ (Hop (AccessTokenForIMSToken x))).
  - intros x. exact (liftResult_exactlyOne _ _ (Hop (IAMAPIKeyForIMSToken x))).
  - intros x. exact (liftResult_exactlyOne _ _ (Hop (IAMAPIKeyForAccessToken x))).
Qed.

Lemma exchange_returns_exactly_one_witness :
  exactlyOne (run (ExchangeRefreshTokenForAccessToken
                     (serviceWith clientIMSAfterTwoRefusals) "r")) /\
  exactlyOne (run (ExchangeAccessTokenForIMSToken
                     (serviceWith clientRefused)
                     {| AccessToken_Token := "abc" |})).
Proof.
  split.
  - refine (proj1 (exchange_returns_exactly_one
                     (serviceWith clientIMSAfterTwoRefusals) _) "r").
    intros n q. cbn. unfold clientIMSAfterTwoRefusals.
    destruct (n <? 2)%nat; discriminate.
  - refine (proj1 (proj2 (exchange_returns_exactly_one
                            (serviceWith clientRefused) _))
              {| AccessToken_Token := "abc" |}).
    intros n q. discriminate.
Defined.

(** C8: for every input string [UpdateAPIKey] returns no error and
    leaves the state unchanged. *)
Theorem UpdateAPIKey_is_noop (tes0 : tokenExchangeService) (apiKey : string)
    (s : State) :
  UpdateAPIKey tes0 apiKey s = Done None s.
Proof. reflexivity. Qed.




(** C10: [IsConnectionError] of a nil error is false; so an attempt that
    succeeds makes the retried function ask to stop, and the retry loop
    returns right after it, with no further attempt and no sleep. *)
Theorem successful_attempt_stops_retry (r : tokenExchangeRequest) (s : State)
    (v : option tokenExchangeResponse) (s1 : State) :
  sendTokenExchangeRequest r s = Done (v, None) s1 ->
  IsConnectionError None = false /\
  retried r s = Done (None, true) (set_err None (set_iamResp v s1)) /\
  forall (retries : nat) (interval : time.Duration),
    util.retryLoop retries interval (retried r) s =
      Done None (set_err None (set_iamResp v s1)).
Proof.
  intros Hsend.
  assert (Hretried :
    retried r s = Done (None, true) (set_err None (set_iamResp v s1))).
  { unfold retried, mbind, M_bind. by rewrite Hsend. }
  split; [reflexivity | split; [exact Hretried |]].
  intros retries interval.
  destruct retries; cbn [util.retryLoop]; unfold mbind, M_bind;
    by rewrite Hretried.
Qed.

Lemma successful_attempt_stops_retry_witness :
  exists s2 : State,
    retried (requestFor (serviceWith clientAccess)) freshState =
      Done (None, true) s2 /\
    util.retryLoop 39 time.ParseDuration_3s
      (retried (requestFor (serviceWith clientAccess))) freshState =
      Done None s2 /\
    length (sent s2) = 1%nat /\ slept s2 = 0.
Proof.
  destruct (successful_attempt_stops_retry
              (requestFor (serviceWith clientAccess)) freshState _ _ eq_refl)
    as (_ & Hretried & Hloop).
  eexists. split; [exact Hretried|]. split; [exact (Hloop 39%nat _)|].
  split; reflexivity.
Defined.

(** * Further properties of the code *)

(** ** One send, by the result of the client *)

(** The branches of one send, in terms of the client's result. *)
Lemma sendTokenExchangeRequest_cases (r : tokenExchangeRequest) (s : State) :
  let d := clientResult r s in
  let q' := withHeaders (authConfig (tes r)) (request s) in
  let s1 := set_request (rest.Build q') (log_sent q' s) in
  sendTokenExchangeRequest r s =
    match rest.Do_err d, rest.Do_resp d with
    | Some _, _ =>
        Done (None, util.NewError ErrorUnclassified
                      "IAM token exchange request failed" [rest.Do_err d]) s1
    | None, None => Panic s1
    | None, Some resp =>
        if decide (rest.StatusCode resp = 200)
        then Done (Some (rest.Do_successV d), None) s1
        else if decide (ErrorMessage (rest.Do_errorV d) = "")
        then Done (None, util.NewError ErrorUnclassified
                           "Unexpected IAM token exchange response" []) s1
        else if decide (Requirements_Code (Requirements (rest.Do_errorV d))
                        = AccountLocked)
        then Done (None, util.NewError ErrorProviderAccountTemporarilyLocked
                           "Infrastructure account is temporarily locked"
                           [Some (failedTokenExchange (rest.Do_errorV d))]) s1
        else Done (None, Some (failedTokenExchange (rest.Do_errorV d))) s1
    end.
Proof.
  intros d q' s1. unfold_send.
  fold (withHeaders (authConfig (tes r)) (request s)).
  fold (clientResult r s). fold d. fold q'. fold s1.
  destruct d as [[resp|] [e|] successV errorV];
    cbn [rest.Do_err rest.Do_resp rest.Do_successV rest.Do_errorV]; try done.
  repeat case_decide; try done.
Qed.

(** The state one send ends in: the request object has been given the
    two headers and handed to the client once, and is left as the client
    built it. *)
Lemma finalState_send (r : tokenExchangeRequest) (s : State) :
  let q' := withHeaders (authConfig (tes r)) (request s) in
  finalState (sendTokenExchangeRequest r s) =
    set_request (rest.Build q') (log_sent q' s).
Proof.
  intros q'. rewrite sendTokenExchangeRequest_cases. fold q'.
  destruct (rest.Do_err (clientResult r s)); [done|].
  destruct (rest.Do_resp (clientResult r s)); [|done].
  repeat case_decide; done.
Qed.

(** X1: one send returns either the decoded success body or an error,
    never both and never neither; it returns the body, with a nil error,
    exactly when the client reports no error and a response of status
    200. *)
Theorem send_returns_response_iff_200 (r : tokenExchangeRequest) (s : State)
    (v : option tokenExchangeResponse) (e : error) (s' : State) :
  sendTokenExchangeRequest r s = Done (v, e) s' ->
  (e = None <->
     rest.Do_err (clientResult r s) = None /\
     exists resp : rest.Response,
       rest.Do_resp (clientResult r s) = Some resp /\
       rest.StatusCode resp = 200) /\
  (e = None -> v = Some (rest.Do_successV (clientResult r s))) /\
  (e <> None -> v = None).
Proof.
  rewrite sendTokenExchangeRequest_cases.
  destruct (clientResult r s) as [[resp|] [e0|] successV errorV];
    cbn [rest.Do_err rest.Do_resp rest.Do_successV rest.Do_errorV];
    try discriminate.
  - intros [= <- <- <-]. split; [|done]. split; [done | by intros [? _]].
  - repeat case_decide; intros [= <- <- <-].
    + split; [|done]. split; [|done]. intros _. split; [done|]. by exists resp.
    + split; [|done]. split; [done | intros [_ (resp' & [= <-] & Hst)]; done].
    + split; [|done]. split; [done | intros [_ (resp' & [= <-] & Hst)]; done].
    + split; [|done]. split; [done | intros [_ (resp' & [= <-] & Hst)]; done].
  - intros [= <- <- <-]. split; [|done]. split; [done | by intros [? _]].
Qed.

Lemma send_returns_response_iff_200_witness :
  exists s' : State,
    sendTokenExchangeRequest (requestFor (serviceWith clientAccess)) freshState =
      Done (Some {| resp_AccessToken := "abc"; resp_ImsToken := "";
                    resp_ImsUserID := 0 |}, None) s'.
Proof.
  eexists.
  destruct (sendTokenExchangeRequest (requestFor (serviceWith clientAccess))
              freshState) as [[v e] s' | s'] eqn:Hsend; [|discriminate Hsend].
  destruct (send_returns_response_iff_200 _ _ _ _ _ Hsend) as (Hiff & Hv & _).
  assert (He : e = None).
  { apply Hiff. split; [reflexivity|]. by eexists. }
  rewrite (Hv He), He. injection Hsend as _ _ <-. reflexivity.
Defined.

(** X2: one send panics (the deferred [resp.Body.Close()] on a nil
    response) exactly when the client hands back neither an error nor a
    response. *)
Theorem send_panics_iff_neither (r : tokenExchangeRequest) (s : State) :
  (exists s' : State, sendTokenExchangeRequest r s = Panic s') <->
  rest.Do_err (clientResult r s) = None /\
  rest.Do_resp (clientResult r s) = None.
Proof.
  rewrite sendTokenExchangeRequest_cases.
  destruct (rest.Do_err (clientResult r s)) as [e0|].
  - split; [intros [s' H]; discriminate H | intros [H _]; discriminate H].
  - destruct (rest.Do_resp (clientResult r s)) as [resp|].
    + split; [|intros [_ H]; discriminate H].
      intros [s' H]. repeat case_decide; discriminate H.
    + split; [done | intros _; by eexists].
Qed.

(** X3: one send sets the Authorization and Accept headers on the shared
    request object, replacing what they held, hands that object to the
    client exactly once and does not sleep.  Method, URL and form fields
    stay, and so does every header other than Authorization, Accept and
    [Content-Type]; [Content-Type] is the client's: it sets it to the
    form-encoded type on the shared object when the request has form
    fields, and leaves it alone otherwise.  A second send leaves the
    request object as the first one left it. *)
Theorem send_sets_headers_on_shared_request (r : tokenExchangeRequest)
    (s : State) :
  let a := authConfig (tes r) in
  let s1 := finalState (sendTokenExchangeRequest r s) in
  rest.method (request s1) = rest.method (request s) /\
  rest.rawUrl (request s1) = rest.rawUrl (request s) /\
  rest.formParams (request s1) = rest.formParams (request s) /\
  rest.header (request s1) !! "Authorization" =
    Some ["Basic " +:+
          base64.EncodeToString (IamClientID a +:+ ":" +:+ IamClientSecret a)] /\
  rest.header (request s1) !! "Accept" = Some ["application/json"] /\
  (forall key : string,
     key <> "Authorization" -> key <> "Accept" -> key <> "Content-Type" ->
     rest.header (request s1) !! key = rest.header (request s) !! key) /\
  rest.header (request s1) !! "Content-Type" =
    (if decide (rest.formParams (request s) = ∅)
     then rest.header (request s) !! "Content-Type"
     else Some ["application/x-www-form-urlencoded"]) /\
  sent s1 = sent s ++ [withHeaders a (request s)] /\
  slept s1 = slept s /\
  request (finalState (sendTokenExchangeRequest r s1)) = request s1.
Proof.
  intros a s1. unfold s1. rewrite !finalState_send.
  cbn [request sent slept log_sent set_request].
  rewrite withHeaders_Build, withHeaders_idem, Build_idem.
  unfold rest.Build.
  cbn [withHeaders rest.Set_ rest.method rest.rawUrl rest.formParams rest.header].
  destruct (decide (rest.formParams (request s) = ∅));
    cbn [withHeaders rest.Set_ rest.method rest.rawUrl rest.formParams
         rest.header];
    (split; [reflexivity|]); (split; [reflexivity|]); (split; [reflexivity|]);
    (split; [rewrite ?lookup_insert_ne by done; apply lookup_insert_eq|]);
    (split; [rewrite ?lookup_insert_ne by done; apply lookup_insert_eq|]);
    (split; [intros key H1 H2 H3; by rewrite !lookup_insert_ne|]);
    (split; [by rewrite ?lookup_insert_eq, ?lookup_insert_ne by done|]);
    done.
Qed.

(** The retried function in terms of one send. *)
Lemma retried_cases (r : tokenExchangeRequest) (s : State) :
  retried r s =
    match sendTokenExchangeRequest r s with
    | Done (v, e) s1 =>
        Done (e, negb (IsConnectionError e)) (set_err e (set_iamResp v s1))
    | Panic s1 => Panic s1
    end.
Proof.
  unfold retried, mbind, M_bind.
  by destruct (sendTokenExchangeRequest r s) as [[v e] s1 | s1].
Qed.

Lemma rangeWrappedErrors_true (wrappedErrors : list string) :
  rangeWrappedErrors wrappedErrors = true <->
  exists werr, werr ∈ wrappedErrors /\ strings.Contains werr "tcp" = true.
Proof.
  rewrite rangeWrappedErrors_spec.
  split; intros (w & Hw & H); exists w; (split; [done|]); by apply Contains_spec.
Qed.

Lemma rangeWrappedErrors_app (l1 l2 : list string) :
  rangeWrappedErrors (l1 ++ l2) = rangeWrappedErrors l1 || rangeWrappedErrors l2.
Proof.
  induction l1 as [|w l1 IH]; [done|]. cbn.
  by destruct (strings.Contains w "tcp").
Qed.

(** ** Which errors are retried *)

(** X4: an error built by [util.NewError] is classified as a connection
    error exactly when one of its non-nil causes has tcp in its own text
    or is itself a connection error; the message of the new error plays
    no part. *)
Theorem wrapping_error_is_connection_error_iff (code : ReasonCode)
    (msg : string) (wrapped : list error) :
  IsConnectionError (util.NewError code msg wrapped) = true <->
  exists (w : error) (v : errorValue),
    w ∈ wrapped /\ w = Some v /\
    (strings.Contains (Error_text v) "tcp" = true \/ IsConnectionError w = true).
Proof.
  unfold util.NewError. cbn [IsConnectionError util.ErrorDeepUnwrapString Fault_Wrapped].
  induction wrapped as [|w wrapped IH].
  - cbn. split; [done | intros (w & v & Hw & _); by apply not_elem_of_nil in Hw].
  - cbn [flat_map]. rewrite rangeWrappedErrors_app, orb_true_iff, IH. split.
    + intros [H | (w' & v & Hw' & Hv & H)].
      * destruct w as [[text | fault]|]; cbn in H.
        -- exists (Some (errorString text)), (errorString text).
           split; [left|]. split; [done|]. left. cbn.
           by destruct (strings.Contains text "tcp").
        -- exists (Some (providerError fault)), (providerError fault).
           split; [left|]. split; [done|]. cbn.
           destruct (strings.Contains (Fault_Message fault) "tcp"); [by left | by right].
        -- discriminate H.
      * exists w', v. split; [by right | done].
    + intros (w' & v & Hw' & Hv & H).
      apply elem_of_cons in Hw' as [-> | Hw'].
      * left. subst w. destruct v as [text | fault]; cbn in H |- *.
        -- destruct H as [-> | H]; [done | discriminate H].
        -- destruct H as [-> | H]; [done|].
           rewrite H. by destruct (strings.Contains (Fault_Message fault) "tcp").
      * right. by exists w', v.
Qed.

(** X5: when the client reports an error, the retried function returns
    an [Unclassified] error and asks for a retry ([shouldStop] false)
    exactly when tcp occurs in the text of the client's error or in a
    layer of its chain of causes. *)
Theorem client_error_retried_iff_tcp (r : tokenExchangeRequest) (s : State)
    (e0 : errorValue) :
  rest.Do_err (clientResult r s) = Some e0 ->
  exists (e : errorValue) (shouldStop : bool) (s' : State),
    retried r s = Done (Some e, shouldStop) s' /\
    Code e = Some ErrorUnclassified /\
    (shouldStop = false <->
       strings.Contains (Error_text e0) "tcp" = true \/
       exists layer : string,
         layer ∈ util.ErrorDeepUnwrapString (Some e0) /\
         strings.Contains layer "tcp" = true).
Proof.
  intros Herr. rewrite retried_cases, sendTokenExchangeRequest_cases.
  cbn zeta. rewrite Herr.
  match goal with
  | |- context [util.NewError ?c ?m ?l] =>
      assert (Hwrap :
        util.NewError c m l =
        Some (providerError
          {| Fault_ReasonCode := c;
             Fault_Message := m;
             Fault_Wrapped :=
               Error_text e0 :: util.ErrorDeepUnwrapString (Some e0) |}))
  end.
  { unfold util.NewError. cbn [flat_map]. rewrite app_nil_r.
    by destruct e0 as [text | fault]. }
  rewrite Hwrap.
  eexists _, _, _. split; [reflexivity|]. split; [reflexivity|].
  rewrite negb_false_iff.
  cbn [IsConnectionError util.ErrorDeepUnwrapString Fault_Wrapped].
  rewrite rangeWrappedErrors_true. split.
  - intros (w & Hw & H). apply elem_of_cons in Hw as [-> | Hw]; [by left|].
    right. by exists w.
  - intros [H | (w & Hw & H)].
    + exists (Error_text e0). split; [left | done].
    + exists w. split; [by right | done].
Qed.

Lemma client_error_retried_iff_tcp_witness :
  exists (e : errorValue) (s' : State),
    retried (requestFor (serviceWith clientRefused)) freshState =
      Done (Some e, false) s' /\
    Code e = Some ErrorUnclassified.
Proof.
  destruct (client_error_retried_iff_tcp
              (requestFor (serviceWith clientRefused)) freshState
              (errorString "dial tcp 10.0.0.1:443: connect: connection refused")
              eq_refl)
    as (e & shouldStop & s' & Hretried & Hcode & Hiff).
  exists e, s'. rewrite Hretried.
  assert (Hstop : shouldStop = false) by (apply Hiff; left; reflexivity).
  by rewrite Hstop.
Defined.

(** X6: for a non-200 response with a non-empty [errorMessage] the
    retried function asks for a retry exactly when tcp occurs in the
    cause text [errorDetails code: error] of the body or, for the
    account-lock code, in the message built from [errorMessage]: the
    contents of the error body decide whether the request is sent
    again. *)
Theorem rejection_retried_iff_tcp_in_body (r : tokenExchangeRequest)
    (s : State) (resp : rest.Response) :
  let body := rest.Do_errorV (clientResult r s) in
  rest.Do_err (clientResult r s) = None ->
  rest.Do_resp (clientResult r s) = Some resp ->
  rest.StatusCode resp <> 200 ->
  ErrorMessage body <> "" ->
  exists (e : errorValue) (shouldStop : bool) (s' : State),
    retried r s = Done (Some e, shouldStop) s' /\
    (shouldStop = false <->
       strings.Contains (causeText body) "tcp" = true \/
       (Requirements_Code (Requirements body) = AccountLocked /\
        strings.Contains
          ("IAM token exchange request failed: " +:+ ErrorMessage body) "tcp"
        = true)).
Proof.
  intros body Herr Hresp Hstatus Hmsg.
  rewrite retried_cases, sendTokenExchangeRequest_cases. cbn zeta.
  rewrite Herr, Hresp. fold body.
  rewrite decide_False by done. rewrite decide_False by done.
  destruct (decide (Requirements_Code (Requirements body) = AccountLocked))
    as [Hcode | Hcode].
  - eexists _, _, _. split; [reflexivity|].
    rewrite negb_false_iff. cbn. fold (causeText body).
    destruct (strings.Contains _ "tcp"); [|destruct (strings.Contains (causeText body) "tcp")].
    + split; [intros _; by right | done].
    + split; [intros _; by left | done].
    + split; [done | intros [H | [_ H]]; done].
  - eexists _, _, _. split; [reflexivity|].
    rewrite negb_false_iff. cbn. fold (causeText body).
    destruct (strings.Contains (causeText body) "tcp").
    + split; [intros _; by left | done].
    + split; [done | intros [H | [H _]]; done].
Qed.

Lemma rejection_retried_iff_tcp_in_body_witness :
  exists (e : errorValue) (s' : State),
    retried
      (requestFor (serviceWith (fun _ _ =>
         responded 503 zero_tokenExchangeResponse
           {| ErrorMessage := "unavailable";
              ErrorType := "X";
              ErrorDetails := "upstream tcp reset";
              Requirements :=
                {| Requirements_Error := ""; Requirements_Code := "" |} |})))
      freshState = Done (Some e, false) s'.
Proof.
  destruct (rejection_retried_iff_tcp_in_body
              (requestFor (serviceWith (fun _ _ =>
                 responded 503 zero_tokenExchangeResponse
                   {| ErrorMessage := "unavailable";
                      ErrorType := "X";
                      ErrorDetails := "upstream tcp reset";
                      Requirements :=
                        {| Requirements_Error := "";
                           Requirements_Code := "" |} |})))
              freshState {| rest.StatusCode := 503 |})
    as (e & shouldStop & s' & Hretried & Hiff); try done.
  exists e, s'. rewrite Hretried.
  assert (Hstop : shouldStop = false) by (apply Hiff; left; reflexivity).
  by rewrite Hstop.
Defined.

(** ** Exchanges that end after one attempt *)

(** What an attempt on the built request returns, by the client's
    result on the request handed to it. *)
Lemma attempt_cases (tes0 : tokenExchangeService) (op : operation) (n : nat) :
  let q := requestOf (authConfig tes0) op in
  let d := httpClient tes0 n (handedOver q n) in
  attempt (requestFor tes0) q n =
    match rest.Do_err d, rest.Do_resp d with
    | Some _, _ =>
        Some (None, util.NewError ErrorUnclassified
                      "IAM token exchange request failed" [rest.Do_err d])
    | None, None => None
    | None, Some resp =>
        if decide (rest.StatusCode resp = 200)
        then Some (Some (rest.Do_successV d), None)
        else if decide (ErrorMessage (rest.Do_errorV d) = "")
        then Some (None, util.NewError ErrorUnclassified
                           "Unexpected IAM token exchange response" [])
        else if decide (Requirements_Code (Requirements (rest.Do_errorV d))
                        = AccountLocked)
        then Some (None, util.NewError ErrorProviderAccountTemporarilyLocked
                           "Infrastructure account is temporarily locked"
                           [Some (failedTokenExchange (rest.Do_errorV d))])
        else Some (None, Some (failedTokenExchange (rest.Do_errorV d)))
    end.
Proof.
  intros q d. unfold attempt. rewrite sendTokenExchangeRequest_cases. cbn zeta.
  assert (Hd : clientResult (requestFor tes0)
                 {| request := handedOver q n; iamResp := None; err := None;
                    sent := handedOver q <$> seq 0 n; slept := 0 |} = d).
  { unfold clientResult. cbn [request sent requestFor client tes].
    rewrite length_fmap, length_seq. unfold q.
    by rewrite (withHeaders_handedOver _ _ n (withHeaders_requestOf _ op)). }
  rewrite Hd.
  destruct (rest.Do_err d); [done|].
  destruct (rest.Do_resp d); [|done].
  repeat case_decide; done.
Qed.

(** An operation whose first attempt is not retryable makes no other. *)
Lemma invoke_single_attempt (tes0 : tokenExchangeService) (op : operation) :
  let q := requestOf (authConfig tes0) op in
  retryable (requestFor tes0) q 0%nat = false ->
  exists s' : State,
    invoke tes0 op = outcomeOf (tokenOf op) (attempt (requestFor tes0) q 0%nat) s' /\
    sent s' = [q] /\ slept s' = 0.
Proof.
  intros q Hstop.
  destruct (invoke_run tes0 op) as (n & s' & Hrun & Hsent & Hslept & Hres).
  assert (Hn : (n - 1)%nat = 0%nat).
  { apply (RetryRun_stops_at _ _ _ _ _ Hrun); [lia | intros j Hj; lia | exact Hstop]. }
  destruct Hrun as ((Hn1 & _) & _).
  assert (n = 1%nat) as -> by lia.
  exists s'. by rewrite Hres, Hsent, Hslept.
Qed.

(** X7: an exchange whose first client call reports no error and hands
    back a non-200 response whose decoded error body has an empty
    [errorMessage] is not retried: it returns the [Unclassified] error
    (unexpected response) after exactly one request and without
    sleeping. *)
Theorem unexpected_response_fails_at_once (tes0 : tokenExchangeService)
    (op : operation) (resp : rest.Response) :
  let q := requestOf (authConfig tes0) op in
  let d := httpClient tes0 0%nat q in
  rest.Do_err d = None ->
  rest.Do_resp d = Some resp ->
  rest.StatusCode resp <> 200 ->
  ErrorMessage (rest.Do_errorV d) = "" ->
  exists s' : State,
    invoke tes0 op =
      Done (None, util.NewError ErrorUnclassified
                    "Unexpected IAM token exchange response" []) s' /\
    sent s' = [q] /\ slept s' = 0.
Proof.
  intros q d Herr Hresp Hstatus Hmsg.
  pose proof (attempt_cases tes0 op 0%nat) as Ha.
  cbn zeta in Ha. cbn [handedOver] in Ha.
  fold q d in Ha. rewrite Herr, Hresp in Ha.
  rewrite decide_False in Ha by done. rewrite decide_True in Ha by done.
  destruct (invoke_single_attempt tes0 op) as (s' & Hres & Hsent & Hslept).
  { fold q. unfold retryable. by rewrite Ha. }
  exists s'. fold q in Hres. rewrite Ha in Hres. by rewrite Hres.
Qed.

Lemma unexpected_response_fails_at_once_witness :
  exists s' : State,
    invoke (serviceWith (clientEmptyBody 201)) (IAMAPIKeyForAccessToken "k") =
      Done (None, util.NewError ErrorUnclassified
                    "Unexpected IAM token exchange response" []) s' /\
    length (sent s') = 1%nat /\ slept s' = 0.
Proof.
  destruct (unexpected_response_fails_at_once
              (serviceWith (clientEmptyBody 201)) (IAMAPIKeyForAccessToken "k")
              {| rest.StatusCode := 201 |})
    as (s' & Hres & Hsent & Hslept); try done.
  exists s'. by rewrite Hres, Hsent, Hslept.
Defined.

(** X8: an exchange whose first response is a rejection (non-200 with a
    non-empty [errorMessage]) without tcp in the cause text, nor, for the
    account-lock code, in the message, fails at once: it returns a
    [FailedTokenExchange] or [ProviderAccountTemporarilyLocked] error
    after exactly one request and without sleeping. *)
Theorem rejection_without_tcp_fails_at_once (tes0 : tokenExchangeService)
    (op : operation) (resp : rest.Response) :
  let q := requestOf (authConfig tes0) op in
  let d := httpClient tes0 0%nat q in
  let body := rest.Do_errorV d in
  rest.Do_err d = None ->
  rest.Do_resp d = Some resp ->
  rest.StatusCode resp <> 200 ->
  ErrorMessage body <> "" ->
  strings.Contains (causeText body) "tcp" = false ->
  (Requirements_Code (Requirements body) = AccountLocked ->
   strings.Contains
     ("IAM token exchange request failed: " +:+ ErrorMessage body) "tcp" = false) ->
  exists (e : errorValue) (s' : State),
    invoke tes0 op = Done (None, Some e) s' /\
    (Code e = Some ErrorFailedTokenExchange \/
     Code e = Some ErrorProviderAccountTemporarilyLocked) /\
    sent s' = [q] /\ slept s' = 0.
Proof.
  intros q d body Herr Hresp Hstatus Hmsg Hcause Hmessage.
  pose proof (attempt_cases tes0 op 0%nat) as Ha.
  cbn zeta in Ha. cbn [handedOver] in Ha.
  fold q d in Ha. rewrite Herr, Hresp in Ha. fold body in Ha.
  rewrite decide_False in Ha by done. rewrite decide_False in Ha by done.
  destruct (decide (Requirements_Code (Requirements body) = AccountLocked))
    as [Hcode | Hcode].
  - destruct (invoke_single_attempt tes0 op) as (s' & Hres & Hsent & Hslept).
    { fold q. unfold retryable. rewrite Ha. cbn. fold (causeText body).
      by rewrite (Hmessage Hcode), Hcause. }
    eexists _, s'. fold q in Hres. rewrite Ha in Hres.
    split; [exact Hres|]. split; [by right | done].
  - destruct (invoke_single_attempt tes0 op) as (s' & Hres & Hsent & Hslept).
    { fold q. unfold retryable. rewrite Ha. cbn. fold (causeText body).
      by rewrite Hcause. }
    eexists _, s'. fold q in Hres. rewrite Ha in Hres.
    split; [exact Hres|]. split; [by left | done].
Qed.

Lemma rejection_without_tcp_fails_at_once_witness :
  exists (e : errorValue) (s' : State),
    invoke (serviceWith (clientRejected AccountLocked "X"))
      (RefreshTokenForAccessToken "r") = Done (None, Some e) s' /\
    length (sent s') = 1%nat /\ slept s' = 0.
Proof.
  destruct (rejection_without_tcp_fails_at_once
              (serviceWith (clientRejected AccountLocked "X"))
              (RefreshTokenForAccessToken "r") {| rest.StatusCode := 400 |})
    as (e & s' & Hres & _ & Hsent & Hslept); try done.
  exists e, s'. by rewrite Hres, Hsent, Hslept.
Defined.

(** ** What an exchange returns *)

(** X9: an exchange returns a token only from a 200 response: when it
    returns a token the error is nil, and the last of its at most 40
    requests, in the form it was handed to the client, was answered
    without error by a response of status 200 whose success body the
    token is projected from. *)
Theorem token_only_from_200_response (tes0 : tokenExchangeService)
    (op : operation) (t : token) (e : error) (s' : State) :
  invoke tes0 op = Done (Some t, e) s' ->
  e = None /\
  exists (k : nat) (resp : rest.Response),
    let d := httpClient tes0 k
               (handedOver (requestOf (authConfig tes0) op) k) in
    (k < 40)%nat /\
    length (sent s') = S k /\
    rest.Do_err d = None /\
    rest.Do_resp d = Some resp /\
    rest.StatusCode resp = 200 /\
    t = tokenOf op (rest.Do_successV d).
Proof.
  intros Hinv.
  destruct (invoke_run tes0 op)
    as (n & s0 & ((Hn1 & Hn2) & _) & Hsent & _ & Hres).
  rewrite Hres in Hinv.
  pose proof (attempt_cases tes0 op (n - 1)) as Ha. cbn zeta in Ha.
  destruct (attempt (requestFor tes0) (requestOf (authConfig tes0) op) (n - 1))
    as [[[body|] [e1|]]|]; cbn in Hinv; try discriminate Hinv.
  injection Hinv as <- <- <-. split; [reflexivity|].
  destruct (rest.Do_err _) as [e0|] eqn:Herr; [discriminate Ha|].
  destruct (rest.Do_resp _) as [resp|] eqn:Hresp; [|discriminate Ha].
  destruct (decide (rest.StatusCode resp = 200)) as [Hstatus|Hstatus].
  - injection Ha as ->. exists (n - 1)%nat, resp. cbn zeta.
    rewrite Herr, Hresp, Hsent, length_fmap, length_seq.
    repeat split; try done; lia.
  - repeat case_decide; discriminate Ha.
Qed.

Lemma token_only_from_200_response_witness :
  exists (k : nat) (resp : rest.Response),
    (k < 40)%nat /\
    rest.Do_resp
      (clientIMSAfterTwoRefusals k
         (handedOver (requestOf sampleAuth (IAMAPIKeyForIMSToken "k")) k)) =
      Some resp /\
    rest.StatusCode resp = 200.
Proof.
  destruct (invoke (serviceWith clientIMSAfterTwoRefusals)
              (IAMAPIKeyForIMSToken "k")) as [[[t|] e] s' | s'] eqn:Hinv;
    try (exfalso; vm_compute in Hinv; discriminate Hinv).
  destruct (token_only_from_200_response _ _ _ _ _ Hinv)
    as (_ & k & resp & Hk & _ & _ & Hresp & Hstatus & _).
  exists k, resp. repeat split; assumption.
Defined.

(** The kinds of error one attempt can produce. *)
Lemma attempt_error_kinds (tes0 : tokenExchangeService) (op : operation)
    (n : nat) (v : option tokenExchangeResponse) (e : errorValue) :
  attempt (requestFor tes0) (requestOf (authConfig tes0) op) n = Some (v, Some e) ->
  Code e = Some ErrorUnclassified \/
  Code e = Some ErrorFailedTokenExchange \/
  Code e = Some ErrorProviderAccountTemporarilyLocked.
Proof.
  rewrite attempt_cases. cbn zeta.
  destruct (rest.Do_err _) as [e0|].
  - intros [= <- <-]. by left.
  - destruct (rest.Do_resp _) as [resp|]; [|done].
    repeat case_decide; intros [= <- <-]; auto.
Qed.

(** X10: an error returned by an exchange comes without a token, is of
    one of the three kinds [Unclassified], [FailedTokenExchange] and
    [ProviderAccountTemporarilyLocked], and is a connection error only
    when all 40 attempts were made (39 sleeps of three seconds). *)
Theorem returned_error_kind_and_retry (tes0 : tokenExchangeService)
    (op : operation) (v : option token) (e : errorValue) (s' : State) :
  invoke tes0 op = Done (v, Some e) s' ->
  v = None /\
  (Code e = Some ErrorUnclassified \/
   Code e = Some ErrorFailedTokenExchange \/
   Code e = Some ErrorProviderAccountTemporarilyLocked) /\
  (IsConnectionError (Some e) = true ->
     length (sent s') = 40%nat /\ slept s' = 117 * time.Second).
Proof.
  intros Hinv.
  destruct (invoke_run tes0 op)
    as (n & s0 & ((Hn1 & Hn2) & _ & Hlast) & Hsent & Hslept & Hres).
  rewrite Hres in Hinv.
  pose proof (attempt_error_kinds tes0 op (n - 1)) as Hkinds.
  unfold retryable in Hlast. rewrite Nat.add_0_l in Hlast.
  destruct (attempt (requestFor tes0) (requestOf (authConfig tes0) op) (n - 1))
    as [[v1 [e1|]]|]; cbn in Hinv.
  - assert (Hinv' : Done (None, Some e1) s0 = Done (v, Some e) s')
      by (by destruct v1).
    injection Hinv' as <- <- <-. split; [done|]. split; [by eapply Hkinds|].
    intros Hconn.
    assert (n = 40%nat) as ->.
    { destruct (decide (n < 40)%nat) as [Hlt|Hge]; [|lia].
      rewrite (Hlast Hlt) in Hconn. discriminate Hconn. }
    rewrite Hsent, Hslept, length_fmap, length_seq. split; reflexivity.
  - destruct v1; discriminate Hinv.
  - discriminate Hinv.
Qed.

Lemma returned_error_kind_and_retry_witness :
  exists (e : errorValue) (s' : State),
    invoke (serviceWith (clientRejected "NotAllowed" "X"))
      (RefreshTokenForAccessToken "r") = Done (None, Some e) s' /\
    (Code e = Some ErrorUnclassified \/
     Code e = Some ErrorFailedTokenExchange \/
     Code e = Some ErrorProviderAccountTemporarilyLocked).
Proof.
  destruct (invoke_single_attempt
              (serviceWith (clientRejected "NotAllowed" "X"))
              (RefreshTokenForAccessToken "r")) as (s' & Hres & _);
    [reflexivity|].
  exists (failedTokenExchange
            (rest.Do_errorV
               (clientRejected "NotAllowed" "X" 0%nat
                  (requestOf sampleAuth (RefreshTokenForAccessToken "r"))))), s'.
  split; [exact Hres|].
  exact (proj1 (proj2 (returned_error_kind_and_retry _ _ _ _ _ Hres))).
Defined.

(** ** The base64 encoding of the credentials *)

Lemma get_chars (s : string) (n : nat) (c : ascii) :
  String.get n s = Some c -> c ∈ chars s.
Proof.
  revert n. induction s as [|c' s IH]; intros n; [done|].
  destruct n as [|n]; cbn.
  - intros [= ->]. left.
  - intros H. right. by apply (IH n).
Qed.

Lemma get_lt (s : string) (n : nat) :
  (n < String.length s)%nat -> exists c, String.get n s = Some c.
Proof.
  revert n. induction s as [|c' s IH]; intros n; cbn; [lia|].
  destruct n as [|n]; [by eexists|]. intros H. apply IH. lia.
Qed.

Lemma get_inj (s : string) (n m : nat) (c : ascii) :
  NoDup (chars s) ->
  String.get n s = Some c -> String.get m s = Some c -> n = m.
Proof.
  revert n m. induction s as [|c' s IH]; intros n m Hnd; [done|].
  apply NoDup_cons in Hnd as [Hnotin Hnd].
  destruct n as [|n], m as [|m]; cbn.
  - done.
  - intros [= ->] H. by apply get_chars in H.
  - intros H [= ->]. by apply get_chars in H.
  - intros Hn Hm. f_equal. by apply IH.
Qed.

Lemma encodeStd_NoDup : NoDup (chars base64.encodeStd).
Proof. apply (bool_decide_unpack _). by vm_compute. Qed.

Lemma padding_not_digit : base64.StdPadding ∉ chars base64.encodeStd.
Proof. apply (bool_decide_unpack _). by vm_compute. Qed.

Lemma land_63_lt (i : N) : (N.to_nat (N.land i 63) < 64)%nat.
Proof.
  change 63%N with (N.ones 6). rewrite N.land_ones.
  pose proof (N.mod_lt i (2 ^ 6)%N ltac:(done)) as H.
  change (2 ^ 6)%N with 64%N in *. lia.
Qed.

Lemma digit_get (i : N) :
  String.get (N.to_nat (N.land i 63)) base64.encodeStd = Some (base64.digit i).
Proof.
  unfold base64.digit.
  destruct (get_lt base64.encodeStd (N.to_nat (N.land i 63))) as [c Hc].
  { exact (land_63_lt i). }
  by rewrite Hc.
Qed.

Lemma digit_in_alphabet (i : N) : base64.digit i ∈ chars base64.encodeStd.
Proof. exact (get_chars _ _ _ (digit_get i)). Qed.

Lemma digit_not_padding (i : N) : base64.digit i <> base64.StdPadding.
Proof.
  intros H. apply padding_not_digit. rewrite <- H. apply digit_in_alphabet.
Qed.

Lemma digit_inj (i j : N) :
  base64.digit i = base64.digit j -> N.land i 63 = N.land j 63.
Proof.
  intros H. apply N2Nat.inj.
  apply (get_inj base64.encodeStd _ _ (base64.digit i) encodeStd_NoDup).
  - apply digit_get.
  - rewrite H. apply digit_get.
Qed.

(** Induction three characters at a time, as the encoder recurses. *)
Lemma string_ind3 (P : string -> Prop) :
  P "" ->
  (forall a, P (String a "")) ->
  (forall a b, P (String a (String b ""))) ->
  (forall a b c rest, P rest -> P (String a (String b (String c rest)))) ->
  forall s, P s.
Proof.
  intros H0 H1 H2 H3.
  assert (H : forall s, P s /\ (forall a, P (String a s)) /\
                        (forall a b, P (String a (String b s)))).
  { induction s as [|c s (IHs & IHs1 & IHs2)]; [by auto|].
    split; [apply IHs1|]. split; [intros a; apply IHs2|].
    intros a b. by apply H3. }
  intros s. apply H.
Qed.

Lemma EncodeToString_chars (src : string) :
  Forall isBase64Char (chars (base64.EncodeToString src)).
Proof.
  induction src as [| a | a b | a b c rest IH] using string_ind3;
    cbn [base64.EncodeToString chars].
  - apply Forall_nil_2.
  - do 2 (apply Forall_cons_2; [left; apply digit_in_alphabet|]).
    do 2 (apply Forall_cons_2; [by right|]). apply Forall_nil_2.
  - do 3 (apply Forall_cons_2; [left; apply digit_in_alphabet|]).
    apply Forall_cons_2; [by right|]. apply Forall_nil_2.
  - do 4 (apply Forall_cons_2; [left; apply digit_in_alphabet|]). exact IH.
Qed.

Lemma EncodeToString_length (src : string) :
  String.length (base64.EncodeToString src) =
  (4 * ((String.length src + 2) / 3))%nat.
Proof.
  induction src as [| a | a b | a b c rest IH] using string_ind3;
    cbn [base64.EncodeToString String.length]; try reflexivity.
  rewrite IH.
  replace (S (S (S (String.length rest))) + 2)%nat
    with (1 * 3 + (String.length rest + 2))%nat by lia.
  rewrite Nat.div_add_l by lia. lia.
Qed.

Lemma byte_testbit_high (a : ascii) (m : N) :
  (8 <= m)%N -> N.testbit (base64.byte a) m = false.
Proof.
  intros Hm. unfold base64.byte.
  pose proof (N_ascii_bounded a) as Hb.
  destruct (N.eq_dec (N_of_ascii a) 0%N) as [-> | Hnz]; [apply N.bits_0|].
  apply N.bits_above_log2.
  apply N.lt_le_trans with 8%N; [|exact Hm].
  apply N.log2_lt_pow2; [lia | exact Hb].
Qed.

Lemma byte_inj (a a' : ascii) :
  (forall m : N, (m < 8)%N ->
     N.testbit (base64.byte a) m = N.testbit (base64.byte a') m) ->
  a = a'.
Proof.
  intros H.
  rewrite <- (ascii_N_embedding a), <- (ascii_N_embedding a'). f_equal.
  apply N.bits_inj. intros m.
  destruct (N.lt_ge_cases m 8%N) as [Hlt | Hge]; [by apply H|].
  fold (base64.byte a) (base64.byte a'). by rewrite !byte_testbit_high.
Qed.

(** The bits of the 24-bit group the encoder forms from three bytes. *)
Lemma group_testbit (a b c : ascii) (n : N) :
  N.testbit
    (N.lor (N.lor (N.shiftl (base64.byte a) 16) (N.shiftl (base64.byte b) 8))
       (base64.byte c)) n =
  if (n <? 8)%N then N.testbit (base64.byte c) n
  else if (n <? 16)%N then N.testbit (base64.byte b) (n - 8)
  else N.testbit (base64.byte a) (n - 16).
Proof.
  rewrite !N.lor_spec.
  destruct (N.ltb_spec n 8%N) as [H8 | H8].
  - rewrite !N.shiftl_spec_low by lia. done.
  - rewrite (byte_testbit_high c n) by done. rewrite orb_false_r.
    destruct (N.ltb_spec n 16%N) as [H16 | H16].
    + rewrite N.shiftl_spec_low by lia.
      by rewrite N.shiftl_spec_high' by lia.
    + rewrite !N.shiftl_spec_high' by lia.
      rewrite (byte_testbit_high b (n - 8)) by lia. by rewrite orb_false_r.
Qed.

(** Equal digits at shift [k] mean equal bits [k .. k+5]. *)
Lemma digit_bits (v v' k j : N) :
  base64.digit (N.shiftr v k) = base64.digit (N.shiftr v' k) ->
  (j < 6)%N ->
  N.testbit v (j + k) = N.testbit v' (j + k).
Proof.
  intros H Hj. apply digit_inj in H.
  apply (f_equal (fun x => N.testbit x j)) in H.
  rewrite !N.land_spec, !N.shiftr_spec' in H.
  change 63%N with (N.ones 6) in H.
  rewrite N.ones_spec_low in H by done. by rewrite !andb_true_r in H.
Qed.

Lemma group_inj (a b c a' b' c' : ascii) (lo : N) :
  (forall n : N, (lo <= n < 24)%N ->
     N.testbit
       (N.lor (N.lor (N.shiftl (base64.byte a) 16) (N.shiftl (base64.byte b) 8))
          (base64.byte c)) n =
     N.testbit
       (N.lor (N.lor (N.shiftl (base64.byte a') 16) (N.shiftl (base64.byte b') 8))
          (base64.byte c')) n) ->
  ((lo <= 16)%N -> a = a') /\ ((lo <= 8)%N -> b = b') /\ ((lo <= 0)%N -> c = c').
Proof.
  intros H. split; [|split]; intros Hlo; apply byte_inj; intros m Hm.
  - specialize (H (m + 16)%N ltac:(lia)). rewrite !group_testbit in H.
    destruct (N.ltb_spec (m + 16) 8%N); [lia|].
    destruct (N.ltb_spec (m + 16) 16%N); [lia|].
    by replace (m + 16 - 16)%N with m in H by lia.
  - specialize (H (m + 8)%N ltac:(lia)). rewrite !group_testbit in H.
    destruct (N.ltb_spec (m + 8) 8%N); [lia|].
    destruct (N.ltb_spec (m + 8) 16%N); [|lia].
    by replace (m + 8 - 8)%N with m in H by lia.
  - specialize (H m ltac:(lia)). rewrite !group_testbit in H.
    by destruct (N.ltb_spec m 8%N); [|lia].
Qed.

(** Bits from the digits: each equal digit gives six equal bits. *)
Lemma bits_from_digits (v v' : N) (n : N) :
  (forall k : N, (k = 18 \/ k = 12 \/ k = 6 \/ k = 0)%N -> (k <= n < k + 6)%N ->
     base64.digit (N.shiftr v k) = base64.digit (N.shiftr v' k)) ->
  (n < 24)%N ->
  N.testbit v n = N.testbit v' n.
Proof.
  intros H Hn.
  assert (Hk : exists k : N,
             (k = 18 \/ k = 12 \/ k = 6 \/ k = 0)%N /\ (k <= n < k + 6)%N).
  { destruct (N.lt_ge_cases n 6%N); [exists 0%N; lia|].
    destruct (N.lt_ge_cases n 12%N); [exists 6%N; lia|].
    destruct (N.lt_ge_cases n 18%N); [exists 12%N; lia|].
    exists 18%N; lia. }
  destruct Hk as (k & Hk & Hrange).
  replace n with (n - k + k)%N by lia.
  apply digit_bits; [by apply H | lia].
Qed.

Lemma group_of_one (a : ascii) :
  N.shiftl (base64.byte a) 16 =
  N.lor (N.lor (N.shiftl (base64.byte a) 16) (N.shiftl (base64.byte zero) 8))
    (base64.byte zero).
Proof.
  change (base64.byte zero) with 0%N. change (N.shiftl 0 8) with 0%N.
  by rewrite !N.lor_0_r.
Qed.

Lemma group_of_two (a b : ascii) :
  N.lor (N.shiftl (base64.byte a) 16) (N.shiftl (base64.byte b) 8) =
  N.lor (N.lor (N.shiftl (base64.byte a) 16) (N.shiftl (base64.byte b) 8))
    (base64.byte zero).
Proof. change (base64.byte zero) with 0%N. by rewrite N.lor_0_r. Qed.

(** [EncodeToString] is injective. *)
Lemma EncodeToString_inj (s1 s2 : string) :
  base64.EncodeToString s1 = base64.EncodeToString s2 -> s1 = s2.
Proof.
  revert s2.
  induction s1 as [| a | a b | a b c rest IH] using string_ind3;
    intros [|a' [|b' [|c' rest']]]; cbn [base64.EncodeToString]; cbn zeta;
    intros H; try discriminate H; try reflexivity;
    repeat match goal with
           | Hs : String _ _ = String _ _ |- _ => injection Hs as ? Hs
           end;
    try (exfalso; eapply digit_not_padding; eassumption);
    try (exfalso; eapply digit_not_padding; symmetry; eassumption).
  - (* one byte against one byte *)
    rewrite (group_of_one a), (group_of_one a') in *.
    destruct (group_inj a zero zero a' zero zero 12) as (Ha & _).
    { intros n Hn. apply bits_from_digits; [|lia].
      intros k [-> | [-> | [-> | ->]]] Hk; try done; lia. }
    by rewrite Ha.
  - (* two bytes against two bytes *)
    rewrite (group_of_two a b), (group_of_two a' b') in *.
    destruct (group_inj a b zero a' b' zero 6) as (Ha & Hb & _).
    { intros n Hn. apply bits_from_digits; [|lia].
      intros k [-> | [-> | [-> | ->]]] Hk; try done; lia. }
    by rewrite Ha, Hb.
  - (* three bytes against three bytes *)
    destruct (group_inj a b c a' b' c' 0) as (Ha & Hb & Hc).
    { intros n Hn. apply bits_from_digits; [|lia].
      intros k [-> | [-> | [-> | ->]]] Hk; done. }
    rewrite Ha, Hb, Hc by done. f_equal. f_equal. f_equal. by apply IH.
Qed.

Lemma length_append (s1 s2 : string) :
  String.length (s1 +:+ s2) = (String.length s1 + String.length s2)%nat.
Proof. induction s1 as [|c s1 IH]; [done|]. simpl. f_equal. exact IH. Qed.

(** The Authorization header one send leaves on the request object. *)
Lemma Authorization_after_send (r : tokenExchangeRequest) (s : State) :
  rest.header (request (finalState (sendTokenExchangeRequest r s)))
    !! "Authorization" =
  Some ["Basic " +:+
        base64.EncodeToString
          (IamClientID (authConfig (tes r)) +:+ ":" +:+
           IamClientSecret (authConfig (tes r)))].
Proof.
  rewrite finalState_send. cbn [request log_sent set_request].
  unfold rest.Build, withHeaders.
  cbn [rest.Set_ rest.formParams].
  destruct (decide (rest.formParams (request s) = ∅)); cbn [rest.Set_ rest.header];
    rewrite ?lookup_insert_ne by done; apply lookup_insert_eq.
Qed.

(** X11: whatever bytes the client ID and secret hold, the value of the
    Authorization header a send sets is the word Basic, a space, and a
    string of base64 digits and padding only, of length four times the
    number of three-byte groups of [clientID:clientSecret]. *)
Theorem authorization_header_is_base64 (r : tokenExchangeRequest) (s : State) :
  exists enc : string,
    rest.header (request (finalState (sendTokenExchangeRequest r s)))
      !! "Authorization" = Some ["Basic " +:+ enc] /\
    Forall isBase64Char (chars enc) /\
    String.length enc =
      (4 * ((String.length (IamClientID (authConfig (tes r))) +
             String.length (IamClientSecret (authConfig (tes r))) + 3) / 3))%nat.
Proof.
  eexists. split; [apply Authorization_after_send|].
  split; [apply EncodeToString_chars|].
  rewrite EncodeToString_length, !length_append. cbn [String.length].
  do 2 f_equal. lia.
Qed.

(** X12: the Authorization headers set for two configurations are equal
    exactly when the strings [clientID:clientSecret] are equal (the
    base64 encoding loses nothing). *)
Theorem authorization_header_determines_credentials
    (r1 r2 : tokenExchangeRequest) (s1 s2 : State) :
  rest.header (request (finalState (sendTokenExchangeRequest r1 s1)))
    !! "Authorization" =
  rest.header (request (finalState (sendTokenExchangeRequest r2 s2)))
    !! "Authorization" <->
  IamClientID (authConfig (tes r1)) +:+ ":" +:+
    IamClientSecret (authConfig (tes r1)) =
  IamClientID (authConfig (tes r2)) +:+ ":" +:+
    IamClientSecret (authConfig (tes r2)).
Proof.
  rewrite !Authorization_after_send. split.
  - intros [= H]. by apply EncodeToString_inj.
  - by intros ->.
Qed.
